(** * NetRetain AI (ispmodelchurn): the churn-prediction wizard of
    [project/src/App.tsx]

    A shallow embedding of the React component [App]: its six state cells,
    its event handlers, the two pure probability mappings, and the part of
    the JSX that decides which controls exist and which are disabled.

    - JavaScript numbers are binary64 floats: Rocq's primitive [float], with
      the comparisons [<?] and [<=?] and the literals rounded as JavaScript
      rounds them.
    - [formData] and [fieldConstraints] are JavaScript objects used as maps
      from field names to values: [gmap string _].
    - [handleSubmit] is an [async] function with one suspension point, the
      [fetch]: it is split at the [await] into the synchronous prefix
      ([handleSubmit], which issues the request) and the continuation
      ([handleSubmit_settle], run when the request settles).
    - [parseFloat] is the language's builtin, taken as a section variable.
    - [response.json()] resolves to what the state can hold, a prediction
      or [null]; the body of the request is the JSON document that
      [JSON.stringify(formData)] denotes. *)

From Stdlib Require Import ZArith Lia Bool List String.
From Stdlib Require Import Floats.
From stdpp Require Import base option list gmap strings.

Set Warnings "-inexact-float".
Set Default Proof Using "Type".
Open Scope string_scope.

(** ** JavaScript numbers *)

Module JS.

Definition number : Type := float.

(** [a < b] and [a > b]: both are false as soon as one side is [NaN]. *)
Definition lt (a b : number) : bool := PrimFloat.ltb a b.
Definition gt (a b : number) : bool := PrimFloat.ltb b a.
Definition le (a b : number) : bool := PrimFloat.leb a b.

(** [isNaN(x)] on a value that already is a number. *)
Definition isNaN (x : number) : bool := PrimFloat.is_nan x.

(** [isFinite(x)]: neither [NaN] nor an infinity. *)
Definition isFinite (x : number) : bool := PrimFloat.is_finite x.

Arguments lt (a b)%_float_scope.
Arguments gt (a b)%_float_scope.
Arguments le (a b)%_float_scope.
Arguments isNaN x%_float_scope.
Arguments isFinite x%_float_scope.

(** The JSON values a serialised record is made of. *)
Inductive JsonValue : Type :=
| JsonNull
| JsonNumber (n : number)
| JsonString (s : string).

(** The names every object inherits from [Object.prototype]: under each of
    them [o[name]] is a function or an object, not [undefined]. *)
Definition Object_prototype_names : list string :=
  [ "constructor"; "__defineGetter__"; "__defineSetter__"; "hasOwnProperty";
    "__lookupGetter__"; "__lookupSetter__"; "isPrototypeOf";
    "propertyIsEnumerable"; "toString"; "valueOf"; "__proto__";
    "toLocaleString" ].

(** What a [throw] can carry, as far as [err instanceof Error] and
    [err.message] can tell. *)
Inductive Thrown : Type :=
| ErrorObject (message : string)
| OtherValue.

(** [err instanceof Error ? err.message : fallback] *)
Definition message_or (fallback : string) (err : Thrown) : string :=
  match err with
  | ErrorObject m => m
  | OtherValue => fallback
  end.

(** A handler either runs to its end or throws. *)
Inductive Completion (A : Type) : Type :=
| Normal (a : A)
| Throw (e : Thrown).
Arguments Normal {A} a.
Arguments Throw {A} e.

(** Truthiness of a [string | null]. *)
Definition truthy (s : option string) : bool :=
  match s with
  | Some m => negb (String.eqb m "")
  | None => false
  end.

End JS.

(** ** Static tables (lines 4-126) *)

(** [number | ''] *)
Inductive FieldValue : Type :=
| Blank
| Num (n : JS.number).

Definition is_empty (v : FieldValue) : bool :=
  match v with
  | Blank => true
  | Num _ => false
  end.

Definition FormData : Type := gmap string FieldValue.

Record PredictionResult : Type := mkPrediction {
  predicted_churn : JS.number;
  churn_probability : JS.number
}.

(** The keys of [FormData], in the order of the interface. *)
Definition fieldNames : list string :=
  [ "total_unsuccessful_calls"; "CustomerServiceInteractionRatio";
    "MinutesOverUsage"; "TotalRevenueGenerated"; "TotalCallFeaturesUsed";
    "RetentionCalls"; "RetentionOffersAccepted"; "MadeCallToRetentionTeam";
    "AdjustmentsToCreditRating"; "MonthlyRevenue"; "TotalRecurringCharge";
    "OverageMinutes"; "MonthsInService"; "PercChangeMinutes";
    "PercChangeRevenues"; "HandsetPrice"; "CreditRating"; "IncomeGroup";
    "AgeHH1"; "AgeHH2"; "ChildrenInHH" ].

Definition initialFormData : FormData :=
  list_to_map
    [ ("total_unsuccessful_calls", Blank);
      ("CustomerServiceInteractionRatio", Blank);
      ("MinutesOverUsage", Blank);
      ("TotalRevenueGenerated", Blank);
      ("TotalCallFeaturesUsed", Blank);
      ("RetentionCalls", Blank);
      ("RetentionOffersAccepted", Blank);
      ("MadeCallToRetentionTeam", Blank);
      ("AdjustmentsToCreditRating", Blank);
      ("MonthlyRevenue", Blank);
      ("TotalRecurringCharge", Blank);
      ("OverageMinutes", Blank);
      ("MonthsInService", Blank);
      ("PercChangeMinutes", Blank);
      ("PercChangeRevenues", Blank);
      ("HandsetPrice", Blank);
      ("CreditRating", Blank);
      ("IncomeGroup", Blank);
      ("AgeHH1", Blank);
      ("AgeHH2", Blank);
      ("ChildrenInHH", Blank) ].

Module FieldGroup.
Record t : Type := mk {
  title : string;
  fields : list string
}.
End FieldGroup.

Definition fieldGroups : list FieldGroup.t :=
  [ FieldGroup.mk "Service Usage"
      ["total_unsuccessful_calls"; "MinutesOverUsage";
       "TotalCallFeaturesUsed"; "OverageMinutes"];
    FieldGroup.mk "Customer Service"
      ["CustomerServiceInteractionRatio"; "RetentionCalls";
       "RetentionOffersAccepted"; "MadeCallToRetentionTeam"];
    FieldGroup.mk "Financial Information"
      ["TotalRevenueGenerated"; "MonthlyRevenue"; "TotalRecurringCharge";
       "AdjustmentsToCreditRating"];
    FieldGroup.mk "Service History"
      ["MonthsInService"; "PercChangeMinutes"; "PercChangeRevenues";
       "HandsetPrice"];
    FieldGroup.mk "Customer Profile"
      ["CreditRating"; "IncomeGroup"; "AgeHH1"; "AgeHH2"; "ChildrenInHH"] ].

(** [{ min?: number; max?: number }] *)
Record Constraints : Type := mkConstraints {
  min : option JS.number;
  max : option JS.number
}.

Definition only_min (lo : JS.number) : Constraints :=
  mkConstraints (Some lo) None.
Definition min_max (lo hi : JS.number) : Constraints :=
  mkConstraints (Some lo) (Some hi).

Definition fieldConstraints : gmap string Constraints :=
  list_to_map
    [ ("total_unsuccessful_calls", only_min 0);
      ("CustomerServiceInteractionRatio", min_max 0 1);
      ("MinutesOverUsage", only_min 0);
      ("TotalRevenueGenerated", only_min 0);
      ("TotalCallFeaturesUsed", only_min 0);
      ("RetentionCalls", only_min 0);
      ("RetentionOffersAccepted", only_min 0);
      ("MadeCallToRetentionTeam", min_max 0 1);
      ("AdjustmentsToCreditRating", only_min 0);
      ("MonthlyRevenue", only_min 0);
      ("TotalRecurringCharge", only_min 0);
      ("OverageMinutes", only_min 0);
      ("MonthsInService", only_min 0);
      ("PercChangeMinutes", min_max (-100) 100);
      ("PercChangeRevenues", min_max (-100) 100);
      ("HandsetPrice", only_min 0);
      ("CreditRating", min_max 1 5);
      ("IncomeGroup", min_max 1 5);
      ("AgeHH1", min_max 0 120);
      ("AgeHH2", min_max 0 120);
      ("ChildrenInHH", only_min 0) ]%float.

Arguments initialFormData : simpl never.
Arguments fieldConstraints : simpl never.

(** [fieldConstraints[name]], as far as [.min] and [.max] can tell: the
    constraints of an own key; for a name inherited from
    [Object.prototype] a function or object, on which [.min] and [.max]
    are [undefined]; and otherwise [undefined]. *)
Definition fieldConstraints_get (name : string) : option Constraints :=
  match fieldConstraints !! name with
  | Some c => Some c
  | None =>
      if existsb (String.eqb name) JS.Object_prototype_names
      then Some (mkConstraints None None)
      else None
  end.

(** ** The component's state (lines 129-134) *)

Record State : Type := mkState {
  formData : FormData;
  prediction : option PredictionResult;
  loading : bool;
  error : option string;
  currentGroupIndex : Z;
  showResults : bool
}.

Definition initialState : State :=
  {| formData := initialFormData;
     prediction := None;
     loading := false;
     error := None;
     currentGroupIndex := 0;
     showResults := false |}.

Definition setFormData (f : FormData -> FormData) (s : State) : State :=
  mkState (f (formData s)) (prediction s) (loading s) (error s)
          (currentGroupIndex s) (showResults s).
Definition setPrediction (p : option PredictionResult) (s : State) : State :=
  mkState (formData s) p (loading s) (error s)
          (currentGroupIndex s) (showResults s).
Definition setLoading (b : bool) (s : State) : State :=
  mkState (formData s) (prediction s) b (error s)
          (currentGroupIndex s) (showResults s).
Definition setError (e : option string) (s : State) : State :=
  mkState (formData s) (prediction s) (loading s) e
          (currentGroupIndex s) (showResults s).
Definition setCurrentGroupIndex (f : Z -> Z) (s : State) : State :=
  mkState (formData s) (prediction s) (loading s) (error s)
          (f (currentGroupIndex s)) (showResults s).
Definition setShowResults (b : bool) (s : State) : State :=
  mkState (formData s) (prediction s) (loading s) (error s)
          (currentGroupIndex s) b.

(** ** The event handlers (lines 136-223) *)

(** [Object.values(o)]; the order is the map's, not JavaScript's insertion
    order, and the only use below is under [some], which does not depend
    on it. *)
Definition Object_values {A : Type} (o : gmap string A) : list A :=
  (map_to_list o).*2.

(** The body of [if (!isNaN(numValue)) { ... }] (lines 150-158): two
    independent tests of [numValue], the second overwriting the first. *)
Definition finalValue (constraints : Constraints) (numValue : JS.number)
  : JS.number :=
  let finalValue := numValue in
  let finalValue :=
    match min constraints with
    | Some lo => if JS.lt numValue lo then lo else finalValue
    | None => finalValue
    end in
  let finalValue :=
    match max constraints with
    | Some hi => if JS.gt numValue hi then hi else finalValue
    | None => finalValue
    end in
  finalValue.

Section Handlers.

Variable parseFloat : string -> JS.number.

(** [handleInputChange] (lines 136-167), on [e.target.name] and
    [e.target.value]. A name under which [fieldConstraints[name]] is
    undefined makes reading [constraints.min] throw a [TypeError] (the
    message is the engine's). *)
Definition handleInputChange (name value : string) (s : State)
  : JS.Completion State :=
  if String.eqb value "" then
    JS.Normal (setFormData (fun prev => <[name := Blank]> prev) s)
  else
    let numValue := parseFloat value in
    let constraints := fieldConstraints_get name in
    if negb (JS.isNaN numValue) then
      match constraints with
      | Some c =>
          JS.Normal
            (setFormData (fun prev => <[name := Num (finalValue c numValue)]> prev) s)
      | None =>
          JS.Throw
            (JS.ErrorObject "Cannot read properties of undefined (reading 'min')")
      end
    else JS.Normal s.

End Handlers.

(** [JSON.stringify] on a value of the record: the empty string is a JSON
    string; a finite number is that number, which its decimal spelling
    gives back exactly, negative zero being spelt ["0"]; an infinity (and
    [NaN]) is [null]. *)
Definition JSON_stringify_value (v : FieldValue) : JS.JsonValue :=
  match v with
  | Blank => JS.JsonString ""
  | Num n =>
      if JS.isFinite n
      then JS.JsonNumber (if PrimFloat.is_zero n then 0%float else n)
      else JS.JsonNull
  end.

(** [JSON.stringify(formData)] (line 186), as the JSON document its text
    denotes: one member for each own key. The text adds the spelling of
    the numbers and the order of the members. *)
Definition JSON_stringify (fd : FormData) : gmap string JS.JsonValue :=
  JSON_stringify_value <$> fd.

(** The request [fetch] is called with (lines 181-187). *)
Record Request : Type := mkRequest {
  url : string;
  method : string;
  body : gmap string JS.JsonValue
}.

(** How the awaited part of [handleSubmit] can go: [fetch] rejects (a
    transport error), or it resolves to a response with its [ok] flag and
    what [response.json()] then does: it throws, or it resolves to a value
    that is stored unchecked. Of the values it can resolve to, these are
    the ones of the state's type [PredictionResult | null]: the body
    [null] ([None]) and a prediction. *)
Inductive FetchOutcome : Type :=
| Rejected (err : JS.Thrown)
| Responded (ok : bool) (json : JS.Completion (option PredictionResult)).

(** [handleSubmit] up to the [await] (lines 169-187): the new state and the
    requests issued. *)
Definition handleSubmit (s : State) : State * list Request :=
  let hasEmptyFields := existsb is_empty (Object_values (formData s)) in
  if hasEmptyFields then
    (setError (Some "Please fill in all fields before submitting.") s, [])
  else
    (setError None (setLoading true s),
     [mkRequest "https://ispmodelchurn.onrender.com/predict" "POST"
        (JSON_stringify (formData s))]).

(** The [catch] block (line 197). *)
Definition handleSubmit_catch (err : JS.Thrown) (s : State) : State :=
  setError (Some (JS.message_or "An error occurred" err)) s.

(** [handleSubmit] from the [await] on (lines 189-200): the rest of the
    [try], the [catch], and the [finally]. *)
Definition handleSubmit_settle (o : FetchOutcome) (s : State) : State :=
  let s' :=
    match o with
    | Rejected err => handleSubmit_catch err s
    | Responded false _ =>
        handleSubmit_catch (JS.ErrorObject "Prediction request failed") s
    | Responded true (JS.Throw err) => handleSubmit_catch err s
    | Responded true (JS.Normal result) =>
        setShowResults true (setPrediction result s)
    end in
  setLoading false s'.

(** [nextGroup] (lines 203-209). *)
Definition nextGroup (s : State) : State * list Request :=
  if (currentGroupIndex s <? Z.of_nat (length fieldGroups) - 1)%Z then
    (setCurrentGroupIndex (fun prev => prev + 1)%Z s, [])
  else handleSubmit s.

(** [prevGroup] (lines 211-215). *)
Definition prevGroup (s : State) : State :=
  if (currentGroupIndex s >? 0)%Z then
    setCurrentGroupIndex (fun prev => prev - 1)%Z s
  else s.

(** [resetForm] (lines 217-223). *)
Definition resetForm (s : State) : State :=
  let s := setFormData (fun _ => initialFormData) s in
  let s := setPrediction None s in
  let s := setCurrentGroupIndex (fun _ => 0%Z) s in
  let s := setShowResults false s in
  setError None s.

(** ** Risk colour and recommended actions (lines 225-263) *)

Definition getChurnRiskColor (probability : JS.number) : string :=
  if JS.lt probability 0.3%float then "bg-green-100 text-green-800"
  else if JS.lt probability 0.7%float then "bg-yellow-100 text-yellow-800"
  else "bg-red-100 text-red-800".

Record RecommendedActions : Type := mkActions {
  title : string;
  steps : list string
}.

Definition getRecommendedActions (probability : JS.number)
  : RecommendedActions :=
  if JS.gt probability 0.7%float then
    {| title := "Critical Retention Actions Required";
       steps :=
         [ "Analyze recent service disruptions and prepare compensation package";
           "Review competitor offers in customer's area to create a competitive counter-offer";
           "Prepare premium service upgrade proposal with first 3 months at reduced rate";
           "Document all recent customer service interactions for retention specialist review" ] |}
  else if JS.gt probability 0.4%float then
    {| title := "Preventive Measures Recommended";
       steps :=
         [ "Review service usage patterns for optimization opportunities";
           "Prepare proactive upgrade offers based on usage patterns";
           "Schedule routine check-in call within next 2 weeks";
           "Monitor service quality metrics for any degradation" ] |}
  else
    {| title := "Growth Opportunity Identified";
       steps :=
         [ "Analyze usage patterns for premium service opportunities";
           "Include in beta testing program for new features";
           "Consider for loyalty rewards program enrollment";
           "Schedule annual service review and upgrade discussion" ] |}.

Arguments getChurnRiskColor probability%_float_scope.
Arguments getRecommendedActions probability%_float_scope.

(** The three risk tiers, named by the colour classes the code returns. *)
Inductive Tier : Type := low | medium | high.

Definition tier_class (t : Tier) : string :=
  match t with
  | low => "bg-green-100 text-green-800"
  | medium => "bg-yellow-100 text-yellow-800"
  | high => "bg-red-100 text-red-800"
  end.

(** ** What the JSX renders (lines 280-288, 311, 332-345, 375-446)

    The handlers above are reached only through the controls the component
    renders; these are the conditions under which each control exists and
    is not disabled. *)

(** The inputs of [renderCurrentGroup]: those of
    [fieldGroups[currentGroupIndex]], in the form view only. *)
Definition renderedInputs (s : State) : list string :=
  if showResults s then []
  else if (currentGroupIndex s <? 0)%Z then []
  else
    match fieldGroups !! Z.to_nat (currentGroupIndex s) with
    | Some currentGroup => FieldGroup.fields currentGroup
    | None => []
    end.

(** "Previous": in the form view, [disabled={currentGroupIndex === 0}]. *)
Definition previousButton (s : State) : bool :=
  negb (showResults s) && negb (currentGroupIndex s =? 0)%Z.

(** "Next" / "Predict Churn": in the form view, [disabled={loading}]. *)
Definition nextButton (s : State) : bool :=
  negb (showResults s) && negb (loading s).

(** "Analyze Another Customer": in the results view, under
    [error ? ... : prediction && ...]. *)
Definition resetButton (s : State) : bool :=
  showResults s && negb (JS.truthy (error s)) &&
  match prediction s with Some _ => true | None => false end.

(** ** The component with its outstanding requests *)

Record World : Type := mkWorld {
  state : State;
  pending : list Request
}.

Definition initialWorld : World := mkWorld initialState [].

Inductive Event : Type :=
| Change (name value : string)
| ClickNext
| ClickPrevious
| ClickReset
| FetchSettled (i : nat) (o : FetchOutcome).

Section Component.

Variable parseFloat : string -> JS.number.

(** Running the handler of an event, whatever is rendered. A handler that
    throws has set no state. The continuation of [handleSubmit] runs for
    the [i]-th outstanding request, if there is one. *)
Definition invoke (w : World) (e : Event) : World :=
  match e with
  | Change name value =>
      match handleInputChange parseFloat name value (state w) with
      | JS.Normal s' => mkWorld s' (pending w)
      | JS.Throw _ => w
      end
  | ClickNext =>
      let '(s', requests) := nextGroup (state w) in
      mkWorld s' (pending w ++ requests)%list
  | ClickPrevious => mkWorld (prevGroup (state w)) (pending w)
  | ClickReset => mkWorld (resetForm (state w)) (pending w)
  | FetchSettled i o =>
      match pending w !! i with
      | Some _ => mkWorld (handleSubmit_settle o (state w)) (delete i (pending w))
      | None => w
      end
  end.

(** Whether the rendered page can produce the event. *)
Definition enabled (w : World) (e : Event) : bool :=
  match e with
  | Change name _ => existsb (String.eqb name) (renderedInputs (state w))
  | ClickNext => nextButton (state w)
  | ClickPrevious => previousButton (state w)
  | ClickReset => resetButton (state w)
  | FetchSettled i _ =>
      match pending w !! i with Some _ => true | None => false end
  end.

(** An event on the page: nothing happens on a control that is absent or
    disabled. *)
Definition dispatch (w : World) (e : Event) : World :=
  if enabled w e then invoke w e else w.

Definition invoke_all (w : World) (es : list Event) : World :=
  fold_left invoke es w.

Definition dispatch_all (w : World) (es : list Event) : World :=
  fold_left dispatch es w.

End Component.

(** ** A [parseFloat] to run examples with

    It agrees with the builtin on the strings made of an optional minus
    sign followed by one to fifteen decimal digits (such an integer is a
    binary64 value), and answers [NaN] on every other string. The theorems
    below hold for every [parseFloat]; this one only feeds the concrete
    runs. *)

Definition digit_value (c : Ascii.ascii) : option Z :=
  let n := Z.of_nat (Ascii.nat_of_ascii c) in
  if ((48 <=? n) && (n <=? 57))%Z then Some (n - 48)%Z else None.

Fixpoint digits_value (acc : Z) (s : string) : option Z :=
  match s with
  | "" => Some acc
  | String c rest =>
      match digit_value c with
      | Some d => digits_value (10 * acc + d) rest
      | None => None
      end
  end.

Definition parseFloat_integers (s : string) : JS.number :=
  let '(negative, digits) :=
    match s with
    | String (Ascii.Ascii true false true true false true false false) rest =>
        (true, rest)
    | _ => (false, s)
    end in
  if ((String.length digits =? 0)%nat || (15 <? String.length digits)%nat)%bool
  then PrimFloat.nan
  else
    match digits_value 0 digits with
    | Some n =>
        let x := PrimFloat.of_uint63 (Uint63.of_Z n) in
        if negative then PrimFloat.opp x else x
    | None => PrimFloat.nan
    end.

(** A session on the page: every field of every group set to ["1"], with
    "Next" after each group; the fifth "Next" is "Predict Churn". *)
Definition fill_and_submit : list Event :=
  flat_map
    (fun group =>
       (map (fun name => Change name "1") (FieldGroup.fields group)
          ++ [ClickNext])%list)
    fieldGroups.

(** Every field set to ["1"] by its handler, whichever group is shown. *)
Definition fill_all : list Event :=
  map (fun name => Change name "1") fieldNames.

(** A response with status 500: [response.ok] is false, and the body is
    never read. *)
Definition http_500 : FetchOutcome :=
  Responded false (JS.Throw (JS.ErrorObject "Unexpected token")).

Definition sample_result : PredictionResult :=
  mkPrediction 1%float 0.85%float.

Definition http_200 : FetchOutcome :=
  Responded true (JS.Normal (Some sample_result)).

(** A response with status 200 whose body is the JSON text [null]. *)
Definition http_200_null : FetchOutcome :=
  Responded true (JS.Normal None).

(** ** Vocabulary of the properties *)

(** The outcomes the [catch] block handles, and the message it stores. *)
Definition failure_message (o : FetchOutcome) : option string :=
  match o with
  | Rejected err => Some (JS.message_or "An error occurred" err)
  | Responded false _ => Some "Prediction request failed"
  | Responded true (JS.Throw err) => Some (JS.message_or "An error occurred" err)
  | Responded true (JS.Normal _) => None
  end.

(** A record has every key of the [FormData] interface. *)
Definition has_all_fields (fd : FormData) : Prop :=
  forall name, name ∈ fieldNames -> is_Some (fd !! name).

Definition validation_message : string :=
  "Please fill in all fields before submitting.".

(** A number is within the bounds a field declares. *)
Definition within_bounds (c : Constraints) (n : JS.number) : Prop :=
  (forall lo, min c = Some lo -> JS.le lo n = true) /\
  (forall hi, max c = Some hi -> JS.le n hi = true).

(** What a record may hold for a field with constraints [c]: the blank, or
    a number within the bounds. *)
Definition field_ok (c : Constraints) (v : option FieldValue) : Prop :=
  v = Some Blank \/ exists n, v = Some (Num n) /\ within_bounds c n.

Definition record_ok (fd : FormData) : Prop :=
  forall name c, fieldConstraints !! name = Some c -> field_ok c (fd !! name).

(** The declared bounds are numbers, and a declared [min] is not above a
    declared [max]. *)
Definition constraints_wf (c : Constraints) : bool :=
  match min c, max c with
  | Some lo, Some hi =>
      negb (JS.isNaN lo) && negb (JS.isNaN hi) && JS.le lo hi
  | Some lo, None => negb (JS.isNaN lo)
  | None, Some hi => negb (JS.isNaN hi)
  | None, None => true
  end.





(** ** More of the component: tables and JSX the properties below need *)

(** [fieldDescriptions] (lines 57-79). *)
Definition fieldDescriptions : gmap string string :=
  list_to_map
    [ ("total_unsuccessful_calls",
       "Number of dropped connections or failed service attempts");
      ("CustomerServiceInteractionRatio",
       "Frequency of customer service contacts relative to service duration");
      ("MinutesOverUsage", "Data usage exceeding plan limits (in GB)");
      ("TotalRevenueGenerated", "Total revenue from the customer to date");
      ("TotalCallFeaturesUsed",
       "Number of additional services utilized (e.g., static IP, premium support)");
      ("RetentionCalls", "Number of calls to retention department");
      ("RetentionOffersAccepted",
       "Number of retention offers customer accepted");
      ("MadeCallToRetentionTeam",
       "Whether customer contacted retention team (0/1)");
      ("AdjustmentsToCreditRating", "Number of billing adjustments made");
      ("MonthlyRevenue", "Current monthly revenue from customer");
      ("TotalRecurringCharge", "Base monthly service charge");
      ("OverageMinutes", "Additional data usage charges");
      ("MonthsInService", "Duration of service in months");
      ("PercChangeMinutes", "Percentage change in data usage");
      ("PercChangeRevenues", "Percentage change in revenue");
      ("HandsetPrice", "Cost of equipment (router/modem)");
      ("CreditRating", "Customer credit score category (1-5)");
      ("IncomeGroup", "Income bracket (1-5)");
      ("AgeHH1", "Age of primary account holder");
      ("AgeHH2", "Age of secondary account holder (if applicable)");
      ("ChildrenInHH", "Number of children in household") ].

Arguments fieldDescriptions : simpl never.

(** [fieldGroups[currentGroupIndex]] in [renderCurrentGroup] (line 266):
    undefined outside the array, and then [currentGroup.title] throws. *)
Definition currentGroup (s : State) : option FieldGroup.t :=
  if (currentGroupIndex s <? 0)%Z then None
  else fieldGroups !! Z.to_nat (currentGroupIndex s).

(** What the card shows (lines 311, 375, 385): the form, or in the results
    view the error box, else the prediction panel, else ([prediction] being
    null) nothing. *)
Inductive View : Type := FormView | ErrorBox | ResultsPanel | NothingShown.

Definition view (s : State) : View :=
  if negb (showResults s) then FormView
  else if JS.truthy (error s) then ErrorBox
  else
    match prediction s with
    | Some _ => ResultsPanel
    | None => NothingShown
    end.

(** The caption of the second button (lines 347-368). *)
Inductive NextCaption : Type :=
| CaptionProcessing
| CaptionPredictChurn
| CaptionNext.

Definition nextButtonCaption (s : State) : NextCaption :=
  if loading s then CaptionProcessing
  else if (currentGroupIndex s =? Z.of_nat (length fieldGroups) - 1)%Z
       then CaptionPredictChurn
       else CaptionNext.

(** The label of an input (line 275):
    [fieldName.replace(/([A-Z])/g, ' $1').trim()], on strings of ASCII
    characters, which all field names are. [trim] removes the white space
    and line terminators at both ends; the ASCII ones are TAB, LF, VT, FF,
    CR and the space. *)
Definition is_upper (c : Ascii.ascii) : bool :=
  let n := Ascii.nat_of_ascii c in ((65 <=? n) && (n <=? 90))%nat.

Definition is_white (c : Ascii.ascii) : bool :=
  let n := Ascii.nat_of_ascii c in
  (((9 <=? n) && (n <=? 13)) || (n =? 32))%nat.

Definition space : Ascii.ascii := Ascii.ascii_of_nat 32.

(** [s.replace(/([A-Z])/g, ' $1')] *)
Fixpoint space_capitals (s : string) : string :=
  match s with
  | "" => ""
  | String c rest =>
      if is_upper c then String space (String c (space_capitals rest))
      else String c (space_capitals rest)
  end.

Fixpoint trimStart (s : string) : string :=
  match s with
  | "" => ""
  | String c rest => if is_white c then trimStart rest else s
  end.

Fixpoint trimEnd (s : string) : string :=
  match s with
  | "" => ""
  | String c rest =>
      match trimEnd rest with
      | "" => if is_white c then "" else String c ""
      | rest' => String c rest'
      end
  end.

Definition trim (s : string) : string := trimEnd (trimStart s).

Definition fieldLabel (fieldName : string) : string :=
  trim (space_capitals fieldName).

(** The label with its spaces taken out again. *)
Fixpoint without_spaces (s : string) : string :=
  match s with
  | "" => ""
  | String c rest =>
      if Ascii.eqb c space then without_spaces rest
      else String c (without_spaces rest)
  end.

Definition no_white (s : string) : Prop :=
  Forall (fun c => is_white c = false) (list_ascii_of_string s).

(** ** Vocabulary of the further properties *)

(** The title shown above the action plan (line 419). *)
Definition title_of (p : JS.number) : string :=
  title (getRecommendedActions p).

Arguments title_of p%_float_scope.

(** The index stays on one of the five groups. *)
Definition index_in_range (s : State) : Prop :=
  (0 <= currentGroupIndex s <= Z.of_nat (length fieldGroups) - 1)%Z.

(** A record as a request may carry it: no blank under any key, and under
    each of the 21 fields a number that is not [NaN] and within the field's
    bounds. *)
Definition complete_record (fd : FormData) : Prop :=
  (forall name, fd !! name <> Some Blank) /\
  (forall name c, fieldConstraints !! name = Some c ->
     exists n, fd !! name = Some (Num n) /\ JS.isNaN n = false /\
               within_bounds c n).

(** The declared bounds are finite numbers. *)
Definition constraints_finite (c : Constraints) : bool :=
  match min c with Some lo => JS.isFinite lo | None => true end &&
  match max c with Some hi => JS.isFinite hi | None => true end.

(** A body as a request carries it: no member is a string (no blank was
    sent), and the member of each of the 21 fields is a finite number
    within the field's bounds, or, for a field that declares no [max],
    possibly [null]. *)
Definition body_ok (b : gmap string JS.JsonValue) : Prop :=
  (forall name text, b !! name <> Some (JS.JsonString text)) /\
  (forall name c, fieldConstraints !! name = Some c ->
     (exists n, b !! name = Some (JS.JsonNumber n) /\
                JS.isFinite n = true /\ within_bounds c n) \/
     (b !! name = Some JS.JsonNull /\ max c = None)).

(** A request as [handleSubmit] sends it. *)
Definition request_ok (r : Request) : Prop :=
  url r = "https://ispmodelchurn.onrender.com/predict" /\
  method r = "POST" /\
  body_ok (body r).

(** What the handlers keep, in whatever order they run: the index on a
    group, the record within bounds, and every outstanding request a POST
    of a complete record's serialisation. *)
Record handlers_invariant (w : World) : Prop := mkHandlersInvariant {
  hi_index : index_in_range (state w);
  hi_record : record_ok (formData (state w));
  hi_requests : Forall request_ok (pending w)
}.

(** What holds on the page, as long as events come from the rendered
    controls and from requests that settle: [loading] tells exactly
    whether a request is outstanding; the results view is idle, with no
    error; the form view has no prediction; the record has no key outside
    the 21 fields. *)
Record session_invariant (w : World) : Prop := mkSessionInvariant {
  si_idle : loading (state w) = false -> pending w = [];
  si_busy : loading (state w) = true ->
            length (pending w) = 1 /\ error (state w) = None /\
            showResults (state w) = false;
  si_results : showResults (state w) = true ->
               loading (state w) = false /\ error (state w) = None;
  si_form : showResults (state w) = false -> prediction (state w) = None;
  si_keys : forall name, is_Some (formData (state w) !! name) ->
            name ∈ fieldNames
}.

(** * Properties *)

(** ** The order of binary64 values

    [<?] and [<=?] on [float] are specified by [SFcompare] on the decoded
    value ([FloatAxioms]); [SFcompare] is a lexicographic comparison of
    sign, exponent and mantissa. *)

Module FloatOrder.

Ltac case_compare :=
  repeat match goal with
    | |- context [(?a ?= ?b)%Z] => destruct (Z.compare_spec a b)
    | |- context [PosDef.Pos.compare_cont Eq ?p ?q] =>
        change (PosDef.Pos.compare_cont Eq p q) with (Pos.compare p q);
        destruct (Pos.compare_spec p q)
    end.

Ltac case_floats x y :=
  destruct x as [[]|[]| |[] ? ?], y as [[]|[]| |[] ? ?]; simpl.

Lemma SFcompare_swap (x y : spec_float) :
  SFcompare y x = option_map CompOpp (SFcompare x y).
Proof.
  case_floats x y; try reflexivity;
    case_compare; simpl; try reflexivity; lia.
Qed.

Lemma SFcompare_refl (x : spec_float) :
  x <> S754_nan -> SFcompare x x = Some Eq.
Proof.
  destruct x as [[]|[]| |[] m e]; simpl; intros H; try congruence;
    case_compare; simpl; try reflexivity; lia.
Qed.

Lemma SFcompare_nan (x y : spec_float) :
  SFcompare x y = None <-> x = S754_nan \/ y = S754_nan.
Proof.
  destruct x, y; simpl; split; intros H; try discriminate; auto;
    destruct H; discriminate.
Qed.

Lemma SFcompare_lt_le_trans (x y z : spec_float) :
  SFltb x y = true -> SFleb y z = true -> SFltb x z = true.
Proof.
  unfold SFltb, SFleb.
  destruct x as [[]|[]| |[] mx ex], y as [[]|[]| |[] my ey],
    z as [[]|[]| |[] mz ez]; simpl;
    try congruence; try (intros; discriminate);
    case_compare; simpl; try congruence; try (intros; discriminate);
    try lia.
Qed.

Lemma is_nan_false (x : float) :
  JS.isNaN x = false <-> Prim2SF x <> S754_nan.
Proof.
  unfold JS.isNaN, is_nan. rewrite FloatAxioms.eqb_spec. unfold SFeqb. split.
  - intros H E. rewrite E in H. discriminate.
  - intros H. rewrite (SFcompare_refl _ H). reflexivity.
Qed.

Lemma gt_lt (x y : float) : JS.gt x y = JS.lt y x.
Proof. reflexivity. Qed.

Lemma le_not_lt (x y : float) : JS.le x y = true -> JS.lt y x = false.
Proof.
  unfold JS.le, JS.lt. rewrite FloatAxioms.leb_spec, FloatAxioms.ltb_spec. unfold SFleb, SFltb.
  rewrite (SFcompare_swap (Prim2SF x) (Prim2SF y)).
  destruct (SFcompare (Prim2SF x) (Prim2SF y)) as [[]|]; simpl; congruence.
Qed.

Lemma lt_le (x y : float) : JS.lt x y = true -> JS.le x y = true.
Proof.
  unfold JS.le, JS.lt. rewrite FloatAxioms.leb_spec, FloatAxioms.ltb_spec. unfold SFleb, SFltb.
  destruct (SFcompare (Prim2SF x) (Prim2SF y)) as [[]|]; simpl; congruence.
Qed.

Lemma lt_le_trans (x y z : float) :
  JS.lt x y = true -> JS.le y z = true -> JS.lt x z = true.
Proof.
  unfold JS.le, JS.lt. rewrite FloatAxioms.leb_spec, !FloatAxioms.ltb_spec.
  apply SFcompare_lt_le_trans.
Qed.

Lemma lt_not_le (x y : float) : JS.lt x y = true -> JS.le y x = false.
Proof.
  intros H. destruct (JS.le y x) eqn:E; [|reflexivity].
  apply le_not_lt in E. congruence.
Qed.

Lemma not_lt_le (x y : float) :
  JS.isNaN x = false -> JS.isNaN y = false ->
  JS.lt x y = false -> JS.le y x = true.
Proof.
  rewrite !is_nan_false. unfold JS.le, JS.lt.
  rewrite FloatAxioms.leb_spec, FloatAxioms.ltb_spec. unfold SFleb, SFltb.
  rewrite (SFcompare_swap (Prim2SF x) (Prim2SF y)).
  intros Hx Hy.
  destruct (SFcompare (Prim2SF x) (Prim2SF y)) as [[]|] eqn:E; simpl;
    try congruence.
  apply SFcompare_nan in E. tauto.
Qed.

Lemma le_refl (x : float) : JS.isNaN x = false -> JS.le x x = true.
Proof.
  rewrite is_nan_false. unfold JS.le. rewrite FloatAxioms.leb_spec. unfold SFleb.
  intros H. rewrite (SFcompare_refl _ H). reflexivity.
Qed.

End FloatOrder.

(** ** Risk tiers and recommended actions *)

Lemma tier_class_inj (t u : Tier) : tier_class t = tier_class u -> t = u.
Proof. destruct t, u; simpl; intros H; try reflexivity; discriminate. Qed.

(** C7. For every probability [p], [getChurnRiskColor] answers the low
    tier's class when [p < 0.3], the medium tier's when [0.3 <= p < 0.7],
    and the high tier's when [p >= 0.7]; in particular 0.0 is low, 0.3 and
    0.69 are medium, 0.7 and 1.0 are high. *)
Theorem getChurnRiskColor_tiers (p : JS.number) :
  (JS.lt p 0.3 = true -> getChurnRiskColor p = tier_class low) /\
  (JS.le 0.3 p = true -> JS.lt p 0.7 = true ->
   getChurnRiskColor p = tier_class medium) /\
  (JS.le 0.7 p = true -> getChurnRiskColor p = tier_class high) /\
  getChurnRiskColor 0.0 = tier_class low /\
  getChurnRiskColor 0.3 = tier_class medium /\
  getChurnRiskColor 0.69 = tier_class medium /\
  getChurnRiskColor 0.7 = tier_class high /\
  getChurnRiskColor 1.0 = tier_class high.
Proof.
  unfold getChurnRiskColor. repeat split.
  - intros H. rewrite H. reflexivity.
  - intros Hlo Hhi. rewrite (FloatOrder.le_not_lt _ _ Hlo), Hhi. reflexivity.
  - intros Hhi.
    rewrite (FloatOrder.le_not_lt _ _ Hhi).
    destruct (JS.lt p 0.3) eqn:E; [|reflexivity].
    assert (JS.lt p 0.7 = true) as F
      by (apply (FloatOrder.lt_le_trans _ _ _ E); reflexivity).
    rewrite (FloatOrder.le_not_lt _ _ Hhi) in F. discriminate.
Qed.

Lemma getChurnRiskColor_tiers_witness :
  (JS.lt 0.1 0.3 = true /\ getChurnRiskColor 0.1 = tier_class low) /\
  (JS.le 0.3 0.5 = true /\ JS.lt 0.5 0.7 = true /\
   getChurnRiskColor 0.5 = tier_class medium) /\
  (JS.le 0.7 0.9 = true /\ getChurnRiskColor 0.9 = tier_class high).
Proof.
  split; [|split].
  - split; [reflexivity|].
    apply (proj1 (getChurnRiskColor_tiers 0.1%float)). reflexivity.
  - split; [reflexivity|split; [reflexivity|]].
    apply (proj1 (proj2 (getChurnRiskColor_tiers 0.5%float))); reflexivity.
  - split; [reflexivity|].
    apply (proj1 (proj2 (proj2 (getChurnRiskColor_tiers 0.9%float)))). reflexivity.
Defined.

(** C6. For every probability [p], [getRecommendedActions] answers a title
    and exactly four steps; the title is "Critical Retention Actions
    Required" when [p > 0.7], "Preventive Measures Recommended" when
    [0.4 < p <= 0.7], and "Growth Opportunity Identified" when [p <= 0.4];
    in particular 0.8 is Critical, 0.5 is Preventive and 0.4 is Growth. *)
Theorem getRecommendedActions_titles (p : JS.number) :
  length (steps (getRecommendedActions p)) = 4 /\
  (JS.gt p 0.7 = true ->
   title (getRecommendedActions p) = "Critical Retention Actions Required") /\
  (JS.gt p 0.4 = true -> JS.le p 0.7 = true ->
   title (getRecommendedActions p) = "Preventive Measures Recommended") /\
  (JS.le p 0.4 = true ->
   title (getRecommendedActions p) = "Growth Opportunity Identified") /\
  title (getRecommendedActions 0.8) = "Critical Retention Actions Required" /\
  title (getRecommendedActions 0.5) = "Preventive Measures Recommended" /\
  title (getRecommendedActions 0.4) = "Growth Opportunity Identified".
Proof.
  unfold getRecommendedActions. repeat split.
  - destruct (JS.gt p 0.7), (JS.gt p 0.4); reflexivity.
  - intros H. rewrite H. reflexivity.
  - intros Hlo Hhi. rewrite !FloatOrder.gt_lt in *.
    rewrite (FloatOrder.le_not_lt _ _ Hhi), Hlo. reflexivity.
  - intros Hle. rewrite !FloatOrder.gt_lt.
    rewrite (FloatOrder.le_not_lt _ _ Hle).
    destruct (JS.lt 0.7 p) eqn:E; [|reflexivity].
    assert (JS.lt 0.7 0.4 = true) as F
      by apply (FloatOrder.lt_le_trans _ _ _ E Hle).
    discriminate F.
Qed.

Lemma getRecommendedActions_titles_witness :
  (JS.gt 0.71 0.7 = true /\
   title (getRecommendedActions 0.71) = "Critical Retention Actions Required") /\
  (JS.gt 0.7 0.4 = true /\ JS.le 0.7 0.7 = true /\
   title (getRecommendedActions 0.7) = "Preventive Measures Recommended") /\
  (JS.le 0.25 0.4 = true /\
   title (getRecommendedActions 0.25) = "Growth Opportunity Identified").
Proof.
  split; [|split].
  - split; [reflexivity|].
    apply (proj1 (proj2 (getRecommendedActions_titles 0.71%float))). reflexivity.
  - split; [reflexivity|split; [reflexivity|]].
    apply (proj1 (proj2 (proj2 (getRecommendedActions_titles 0.7%float))));
      reflexivity.
  - split; [reflexivity|].
    apply (proj1 (proj2 (proj2 (proj2 (getRecommendedActions_titles 0.25%float))))).
    reflexivity.
Defined.

(** ** Reset *)

Lemma initialFormData_blank :
  Forall (fun name => initialFormData !! name = Some Blank) fieldNames.
Proof.
  unfold fieldNames.
  repeat (constructor; [vm_compute; reflexivity|]).
  constructor.
Qed.

(** C9. [resetForm], from any state, yields the initial values of
    everything but [loading]: [currentGroupIndex = 0],
    [showResults = false], no prediction, no error, and each of the 21
    fields of the record blank. *)
Theorem resetForm_initial (s : State) :
  currentGroupIndex (resetForm s) = 0%Z /\
  showResults (resetForm s) = false /\
  prediction (resetForm s) = None /\
  error (resetForm s) = None /\
  formData (resetForm s) = initialFormData /\
  length fieldNames = 21 /\
  Forall (fun name => formData (resetForm s) !! name = Some Blank) fieldNames /\
  resetForm s = setLoading (loading s) initialState.
Proof.
  repeat split. exact initialFormData_blank.
Qed.

(** C10. [resetForm] leaves [loading] as it was; so a reset while a request
    is outstanding leaves [loading = true], and it is the continuation of
    [handleSubmit], when that request settles, that sets it to false. *)
Theorem resetForm_keeps_loading (s : State) :
  loading (resetForm s) = loading s /\
  (loading s = true -> loading (resetForm s) = true) /\
  (forall o, loading (handleSubmit_settle o (resetForm s)) = false) /\
  (forall parseFloat requests,
     pending (invoke parseFloat (mkWorld s requests) ClickReset) = requests).
Proof.
  split; [reflexivity|split]; [intros H; exact H|split; reflexivity].
Qed.

Lemma resetForm_keeps_loading_witness :
  let w := dispatch_all parseFloat_integers initialWorld fill_and_submit in
  loading (state w) = true /\
  loading (resetForm (state w)) = true /\
  loading (handleSubmit_settle http_200 (resetForm (state w))) = false.
Proof.
  intros w.
  assert (loading (state w) = true) as H by (vm_compute; reflexivity).
  destruct (resetForm_keeps_loading (state w)) as (_ & Hkeep & Hsettle & _).
  split; [exact H|split; [exact (Hkeep H)|exact (Hsettle http_200)]].
Defined.

(** ** Submission *)

(** C1 (as the code has it). When the request fails, the continuation of
    [handleSubmit] stores the message and sets [loading] to false, and it
    leaves [prediction] and [showResults] as they were: [showResults] is
    not set to true. *)
Theorem handleSubmit_settle_failure (s : State) (o : FetchOutcome) (m : string) :
  failure_message o = Some m ->
  error (handleSubmit_settle o s) = Some m /\
  loading (handleSubmit_settle o s) = false /\
  prediction (handleSubmit_settle o s) = prediction s /\
  showResults (handleSubmit_settle o s) = showResults s.
Proof.
  destruct o as [err|[] [r|err]]; simpl; intros H;
    try discriminate; injection H as <-; repeat split.
Qed.

(** The complete record submitted from the page, and the service answering
    with status 500: the message is stored and the page stays on the form,
    [showResults = false]. *)
Lemma handleSubmit_settle_failure_witness :
  let w := dispatch_all parseFloat_integers initialWorld fill_and_submit in
  let s' := handleSubmit_settle http_500 (state w) in
  length (pending w) = 1 /\
  showResults (state w) = false /\
  error s' = Some "Prediction request failed" /\
  loading s' = false /\
  prediction s' = prediction (state w) /\
  showResults s' = showResults (state w).
Proof.
  split; [vm_compute; reflexivity|].
  split; [vm_compute; reflexivity|].
  apply (handleSubmit_settle_failure _ http_500). reflexivity.
Defined.

(** [Object.values(formData).some(value => value === '')] *)
Lemma hasEmptyFields_iff (fd : FormData) :
  existsb is_empty (Object_values fd) = true <->
  exists name, fd !! name = Some Blank.
Proof.
  unfold Object_values. rewrite existsb_exists. split.
  - intros (v & Hin & Hv). destruct v; [|discriminate].
    apply list_elem_of_In, list_elem_of_fmap in Hin as ([k v] & Hk & Hin).
    simpl in Hk. subst v. apply elem_of_map_to_list in Hin. eauto.
  - intros (k & Hk). exists Blank. split; [|reflexivity].
    apply list_elem_of_In, list_elem_of_fmap. exists (k, Blank).
    split; [reflexivity|]. apply elem_of_map_to_list. exact Hk.
Qed.

(** C5. On a record of the [FormData] interface: if one of the 21 fields is
    blank, [handleSubmit] only stores the validation message, issues no
    request and leaves [showResults] as it was; and if it issues a request,
    each of the 21 fields holds a number. *)
Theorem handleSubmit_incomplete (s : State) :
  has_all_fields (formData s) ->
  ((exists name, name ∈ fieldNames /\ formData s !! name = Some Blank) ->
   handleSubmit s = (setError (Some validation_message) s, []) /\
   (handleSubmit s).2 = [] /\
   error (handleSubmit s).1 = Some validation_message /\
   showResults (handleSubmit s).1 = showResults s /\
   loading (handleSubmit s).1 = loading s) /\
  ((handleSubmit s).2 <> [] ->
   (forall name, name ∈ fieldNames ->
      exists n, formData s !! name = Some (Num n)) /\
   handleSubmit s =
     (setError None (setLoading true s),
      [mkRequest "https://ispmodelchurn.onrender.com/predict" "POST"
         (JSON_stringify (formData s))])).
Proof.
  intros Hall. unfold handleSubmit. split.
  - intros (name & _ & Hname).
    assert (existsb is_empty (Object_values (formData s)) = true) as ->
      by (apply hasEmptyFields_iff; eauto).
    repeat split.
  - destruct (existsb is_empty (Object_values (formData s))) eqn:E; simpl.
    + intros H. congruence.
    + intros _. split; [|reflexivity].
      intros name Hname. destruct (Hall name Hname) as [[|n] Hv]; [|eauto].
      assert (existsb is_empty (Object_values (formData s)) = true)
        by (apply hasEmptyFields_iff; eauto).
      congruence.
Qed.

(** ** Edits *)

Lemma fieldConstraints_inv (name : string) (c : Constraints) :
  fieldConstraints !! name = Some c ->
  name ∈ fieldNames /\ constraints_wf c = true.
Proof.
  unfold fieldConstraints. intros H. apply elem_of_list_to_map_2 in H.
  repeat (apply elem_of_cons in H as [H|H];
          [injection H as -> ->; split;
           [apply (bool_decide_unpack _); vm_compute; exact I | reflexivity]|]).
  apply elem_of_nil in H. destruct H.
Qed.

Lemma fieldNames_constrained :
  Forall (fun name => is_Some (fieldConstraints !! name)) fieldNames.
Proof.
  unfold fieldNames.
  repeat (constructor; [vm_compute; eexists; reflexivity|]).
  constructor.
Qed.

Lemma initial_record_ok : record_ok initialFormData.
Proof.
  intros name c H. left. apply fieldConstraints_inv in H as [H _].
  exact (proj1 (Forall_forall _ _) initialFormData_blank name H).
Qed.

Lemma record_ok_has_all_fields (fd : FormData) :
  record_ok fd -> has_all_fields fd.
Proof.
  intros Hok name Hname.
  destruct (proj1 (Forall_forall _ _) fieldNames_constrained name Hname)
    as [c Hc].
  destruct (Hok name c Hc) as [->|(n & -> & _)]; eauto.
Qed.

Section Clamp.

Variable c : Constraints.
Hypothesis c_wf : constraints_wf c = true.

Lemma finalValue_below (v lo : JS.number) :
  min c = Some lo -> JS.lt v lo = true -> finalValue c v = lo.
Proof using c_wf.
  intros Hmin Hlt. pose proof c_wf as W.
  unfold finalValue, constraints_wf in *. rewrite Hmin in W |- *.
  rewrite Hlt. destruct (max c) as [hi|]; [|reflexivity].
  apply andb_prop in W as [_ Hle].
  rewrite FloatOrder.gt_lt.
  rewrite (FloatOrder.le_not_lt _ _
             (FloatOrder.lt_le _ _ (FloatOrder.lt_le_trans _ _ _ Hlt Hle))).
  reflexivity.
Qed.

Lemma finalValue_above (v hi : JS.number) :
  max c = Some hi -> JS.gt v hi = true -> finalValue c v = hi.
Proof.
  unfold finalValue. intros -> ->. reflexivity.
Qed.

Lemma finalValue_inside (v : JS.number) :
  (forall lo, min c = Some lo -> JS.lt v lo = false) ->
  (forall hi, max c = Some hi -> JS.gt v hi = false) ->
  finalValue c v = v.
Proof.
  unfold finalValue. intros Hlo Hhi.
  destruct (min c) as [lo|], (max c) as [hi|];
    rewrite ?(Hlo _ eq_refl), ?(Hhi _ eq_refl); reflexivity.
Qed.

Lemma finalValue_within_bounds (v : JS.number) :
  JS.isNaN v = false -> within_bounds c (finalValue c v).
Proof using c_wf.
  intros Hv. pose proof c_wf as W.
  unfold within_bounds, finalValue, constraints_wf in *. clear c_wf.
  destruct (min c) as [lo|], (max c) as [hi|];
    repeat match goal with
      | H : _ && _ = true |- _ => apply andb_prop in H as [? ?]
      | H : negb _ = true |- _ => apply negb_true_iff in H
      end;
    rewrite ?FloatOrder.gt_lt;
    split; intros b Hb; try discriminate; injection Hb as <-;
    repeat match goal with
      | |- context [JS.lt ?a ?b] => destruct (JS.lt a b) eqn:?
      end;
    eauto using FloatOrder.le_refl, FloatOrder.not_lt_le, FloatOrder.lt_le.
Qed.

End Clamp.

(** [fieldConstraints[name]] on an own key. *)
Lemma fieldConstraints_get_own (name : string) (c : Constraints) :
  fieldConstraints !! name = Some c -> fieldConstraints_get name = Some c.
Proof.
  intros H. unfold fieldConstraints_get. rewrite H. reflexivity.
Qed.

Section Edits.

Variable parseFloat : string -> JS.number.

(** [handleInputChange] on a field that has constraints: the three paths
    of the code. *)
Lemma handleInputChange_constrained (name value : string) (s : State)
    (c : Constraints) :
  fieldConstraints !! name = Some c ->
  handleInputChange parseFloat name value s =
  JS.Normal
    (if String.eqb value "" then setFormData (insert name Blank) s
     else if JS.isNaN (parseFloat value) then s
     else setFormData (insert name (Num (finalValue c (parseFloat value)))) s).
Proof.
  intros Hc. unfold handleInputChange.
  rewrite (fieldConstraints_get_own _ _ Hc).
  destruct (String.eqb value ""); [reflexivity|].
  destruct (JS.isNaN (parseFloat value)); cbn; reflexivity.
Qed.

Lemma handleInputChange_record_ok (name value : string) (s s' : State) :
  record_ok (formData s) ->
  handleInputChange parseFloat name value s = JS.Normal s' ->
  record_ok (formData s').
Proof.
  intros Hok. unfold handleInputChange.
  destruct (String.eqb value "").
  - intros [= <-] name' c' Hc'. unfold setFormData, FormData in *; simpl.
    destruct (decide (name = name')) as [<-|Hne].
    + rewrite lookup_insert_eq. left. reflexivity.
    + rewrite lookup_insert_ne by exact Hne. apply Hok, Hc'.
  - destruct (JS.isNaN (parseFloat value)) eqn:Hnan; cbn [negb].
    + intros [= <-]. exact Hok.
    + destruct (fieldConstraints_get name) as [c|] eqn:Hc; [|discriminate].
      intros [= <-] name' c' Hc'. unfold setFormData, FormData in *; simpl.
      destruct (decide (name = name')) as [<-|Hne].
      * rewrite lookup_insert_eq. right. eexists. split; [reflexivity|].
        rewrite (fieldConstraints_get_own _ _ Hc') in Hc.
        injection Hc as <-.
        apply finalValue_within_bounds;
          [apply (fieldConstraints_inv name), Hc' | exact Hnan].
      * rewrite lookup_insert_ne by exact Hne. apply Hok, Hc'.
Qed.

(** No handler stores anything in the record but [handleInputChange] and
    [resetForm]. *)
Lemma invoke_record_ok (w : World) (e : Event) :
  record_ok (formData (state w)) ->
  record_ok (formData (state (invoke parseFloat w e))).
Proof.
  intros Hok. destruct e as [name value| | | |i o]; simpl.
  - destruct (handleInputChange parseFloat name value (state w)) as [s'|err]
      eqn:E; simpl; [|exact Hok].
    exact (handleInputChange_record_ok _ _ _ _ Hok E).
  - unfold nextGroup, handleSubmit.
    destruct (_ <? _)%Z; simpl; [exact Hok|].
    destruct (existsb _ _); simpl; exact Hok.
  - unfold prevGroup. destruct (_ >? _)%Z; exact Hok.
  - exact initial_record_ok.
  - destruct (pending w !! i); [|exact Hok].
    destruct o as [err|[] [result|err]]; exact Hok.
Qed.

Lemma invoke_all_record_ok (es : list Event) (w : World) :
  record_ok (formData (state w)) ->
  record_ok (formData (state (invoke_all parseFloat w es))).
Proof.
  revert w. induction es as [|e es IH]; intros w Hok; simpl; [exact Hok|].
  apply IH, invoke_record_ok, Hok.
Qed.

Lemma dispatch_record_ok (w : World) (e : Event) :
  record_ok (formData (state w)) ->
  record_ok (formData (state (dispatch parseFloat w e))).
Proof.
  intros Hok. unfold dispatch. destruct (enabled w e); [|exact Hok].
  apply invoke_record_ok, Hok.
Qed.

Lemma dispatch_all_record_ok (es : list Event) (w : World) :
  record_ok (formData (state w)) ->
  record_ok (formData (state (dispatch_all parseFloat w es))).
Proof.
  revert w. induction es as [|e es IH]; intros w Hok; simpl; [exact Hok|].
  apply IH, dispatch_record_ok, Hok.
Qed.

(** C4. In whatever state the handlers have left the component, an edit of
    a field that has constraints [c] with any raw string leaves that field
    blank or holding a number within [c]: the empty string stores the
    blank; a string that does not parse changes nothing; a parsed number
    below a declared [min] is stored as [min], one above a declared [max]
    as [max], and any other as it is. With both bounds declared the stored
    number therefore lies between them. *)
Theorem handleInputChange_within_bounds (history : list Event)
    (name value : string) (c : Constraints) :
  fieldConstraints !! name = Some c ->
  let s := state (invoke_all parseFloat initialWorld history) in
  let v := parseFloat value in
  exists s',
    handleInputChange parseFloat name value s = JS.Normal s' /\
    field_ok c (formData s' !! name) /\
    (value = "" -> formData s' !! name = Some Blank) /\
    (value <> "" -> JS.isNaN v = true -> s' = s) /\
    (value <> "" -> JS.isNaN v = false ->
     exists stored,
       formData s' !! name = Some (Num stored) /\
       within_bounds c stored /\
       (forall lo, min c = Some lo -> JS.lt v lo = true -> stored = lo) /\
       (forall hi, max c = Some hi -> JS.gt v hi = true -> stored = hi) /\
       ((forall lo, min c = Some lo -> JS.lt v lo = false) ->
        (forall hi, max c = Some hi -> JS.gt v hi = false) ->
        stored = v)).
Proof.
  intros Hc s v.
  assert (record_ok (formData s)) as Hok
    by apply invoke_all_record_ok, initial_record_ok.
  pose proof (proj2 (fieldConstraints_inv _ _ Hc)) as Hwf.
  pose proof (handleInputChange_constrained name value s c Hc) as Hrun.
  eexists. split; [exact Hrun|].
  split; [exact (handleInputChange_record_ok _ _ _ _ Hok Hrun name c Hc)|].
  fold v. destruct (String.eqb_spec value "") as [->|Hne].
  - split; [intros _; simpl; apply (lookup_insert_eq (M:=gmap string))|].
    split; intros H; destruct (H eq_refl).
  - split; [intros H; destruct (Hne H)|].
    split; intros _ Hnan; rewrite Hnan; [reflexivity|].
    exists (finalValue c v). simpl.
    split; [apply (lookup_insert_eq (M:=gmap string))|].
    split; [exact (finalValue_within_bounds c Hwf v Hnan)|].
    split; [intros lo; apply (finalValue_below c Hwf)|].
    split; [intros hi; apply (finalValue_above c)|].
    apply finalValue_inside.
Qed.

End Edits.

Lemma handleInputChange_within_bounds_witness :
  let s := state (invoke_all parseFloat_integers initialWorld []) in
  fieldConstraints !! "CreditRating" = Some (min_max 1 5)%float /\
  exists s',
    handleInputChange parseFloat_integers "CreditRating" "7" s = JS.Normal s' /\
    formData s' !! "CreditRating" = Some (Num 5%float).
Proof.
  split; [reflexivity|].
  destruct (handleInputChange_within_bounds parseFloat_integers []
              "CreditRating" "7" (min_max 1 5)%float eq_refl)
    as (s' & Hrun & _ & _ & _ & Hnum).
  exists s'. split; [exact Hrun|].
  destruct Hnum as (stored & Hstored & _ & _ & Hhi & _);
    [discriminate|reflexivity|].
  rewrite Hstored, (Hhi 5%float eq_refl eq_refl). reflexivity.
Defined.

(** The record of [fill_all] has no blank, and the initial one is all
    blank: [handleSubmit] issues one request on the first and none on the
    second. *)
Lemma handleSubmit_incomplete_witness :
  let s1 := state (invoke_all parseFloat_integers initialWorld fill_all) in
  ((handleSubmit initialState).2 = [] /\
   error (handleSubmit initialState).1 = Some validation_message /\
   showResults (handleSubmit initialState).1 = showResults initialState) /\
  (length (handleSubmit s1).2 = 1 /\
   exists n, formData s1 !! "AgeHH1" = Some (Num n)).
Proof.
  intros s1. split.
  - destruct (handleSubmit_incomplete initialState) as [H _].
    + apply record_ok_has_all_fields, initial_record_ok.
    + destruct H as (_ & H1 & H2 & H3 & _).
      * exists "AgeHH1". split; [|reflexivity].
        apply (bool_decide_unpack _). vm_compute. exact I.
      * auto.
  - split; [vm_compute; reflexivity|].
    destruct (handleSubmit_incomplete s1) as [_ H].
    + apply record_ok_has_all_fields, invoke_all_record_ok, initial_record_ok.
    + destruct H as [H _]; [vm_compute; discriminate|].
      apply H. apply (bool_decide_unpack _). vm_compute. exact I.
Defined.

(** ** The page: what the rendered controls allow *)

Section Page.

Variable parseFloat : string -> JS.number.

Lemma handleInputChange_frame (name value : string) (s s' : State) :
  handleInputChange parseFloat name value s = JS.Normal s' ->
  exists fd, s' = setFormData (fun _ => fd) s.
Proof.
  unfold handleInputChange. destruct (String.eqb value "").
  - intros [= <-]. eexists. reflexivity.
  - destruct (JS.isNaN (parseFloat value)); cbn [negb].
    + intros [= <-]. exists (formData s). destruct s; reflexivity.
    + destruct (fieldConstraints_get name); [|discriminate].
      intros [= <-]. eexists. reflexivity.
Qed.

(** C3. Whenever [loading] is true, a second submission attempt is a
    no-op: the second button ("Next", and "Predict Churn" on the last
    group) is the only trigger of [nextGroup] and [handleSubmit], and it is
    disabled while [loading], so a click on it runs no handler, issues no
    request and leaves the state as it is. (The guard is the button's:
    the requests [nextGroup] would issue do not depend on [loading].) *)
Theorem nextButton_disabled_while_loading (w : World) :
  loading (state w) = true ->
  enabled w ClickNext = false /\
  dispatch parseFloat w ClickNext = w /\
  pending (dispatch parseFloat w ClickNext) = pending w /\
  (forall b, (nextGroup (setLoading b (state w))).2 = (nextGroup (state w)).2).
Proof.
  intros H. unfold dispatch, enabled, nextButton. rewrite H, andb_false_r.
  repeat split. intros b. unfold nextGroup, handleSubmit. simpl.
  destruct (_ <? _)%Z; [reflexivity|].
  destruct (existsb _ _); reflexivity.
Qed.

End Page.

Lemma nextButton_disabled_while_loading_witness :
  let w := dispatch_all parseFloat_integers initialWorld fill_and_submit in
  loading (state w) = true /\
  dispatch parseFloat_integers w ClickNext = w.
Proof.
  intros w. split; [vm_compute; reflexivity|].
  apply (nextButton_disabled_while_loading parseFloat_integers w).
  vm_compute. reflexivity.
Defined.

(** The inputs the form renders are fields of the record. *)

Lemma fieldGroups_fields_known :
  Forall (fun group =>
            Forall (fun name => name ∈ fieldNames) (FieldGroup.fields group))
         fieldGroups.
Proof.
  unfold fieldGroups.
  repeat (constructor;
          [simpl;
           repeat (constructor;
                   [apply (bool_decide_unpack _); vm_compute; exact I|]);
           constructor|]).
  constructor.
Qed.

Lemma renderedInputs_known (s : State) (name : string) :
  name ∈ renderedInputs s -> name ∈ fieldNames.
Proof.
  unfold renderedInputs. destruct (showResults s).
  { intros H. apply elem_of_nil in H. destruct H. }
  destruct (_ <? _)%Z.
  { intros H. apply elem_of_nil in H. destruct H. }
  destruct (fieldGroups !! _) as [group|] eqn:E.
  - apply list_elem_of_lookup_2 in E.
    pose proof (proj1 (Forall_forall _ _) fieldGroups_fields_known group E)
      as Hg.
    exact (proj1 (Forall_forall _ _) Hg name).
  - intros H. apply elem_of_nil in H. destruct H.
Qed.

Lemma enabled_Change_rendered (parseFloat : string -> JS.number)
    (w : World) (name value : string) :
  enabled w (Change name value) = true -> name ∈ renderedInputs (state w).
Proof.
  simpl. rewrite existsb_exists. intros (x & Hin & Heq).
  apply String.eqb_eq in Heq. subst x. apply list_elem_of_In, Hin.
Qed.

Lemma initialFormData_keys (name : string) :
  is_Some (initialFormData !! name) -> name ∈ fieldNames.
Proof.
  intros [v H]. unfold initialFormData in H.
  apply elem_of_list_to_map_2 in H.
  repeat (apply elem_of_cons in H as [H|H];
          [injection H as -> ->;
           apply (bool_decide_unpack _); vm_compute; exact I|]).
  apply elem_of_nil in H. destruct H.
Qed.

Section Session.

Variable parseFloat : string -> JS.number.

Lemma handleInputChange_keys (name value : string) (s s' : State)
    (key : string) :
  handleInputChange parseFloat name value s = JS.Normal s' ->
  is_Some (formData s' !! key) ->
  key = name \/ is_Some (formData s !! key).
Proof.
  unfold handleInputChange.
  assert (forall v,
            is_Some (formData (setFormData (fun prev => <[name:=v]> prev) s)
                     !! key) ->
            key = name \/ is_Some (formData s !! key)) as Hins.
  { intros v. unfold setFormData, FormData in *. simpl.
    rewrite lookup_insert_is_Some. intros [->|[_ H]]; auto. }
  destruct (String.eqb value "").
  - intros [= <-]. apply Hins.
  - destruct (JS.isNaN (parseFloat value)); cbn [negb].
    + intros [= <-]. auto.
    + destruct (fieldConstraints_get name); [|discriminate].
      intros [= <-]. apply Hins.
Qed.

Lemma dispatch_session_invariant (w : World) (e : Event) :
  session_invariant w -> session_invariant (dispatch parseFloat w e).
Proof.
  intros [Hidle Hbusy Hres Hform Hkeys]. unfold dispatch.
  destruct (enabled w e) eqn:En; [|split; assumption].
  destruct e as [name value| | | |i o].
  - pose proof (renderedInputs_known _ _
                  (enabled_Change_rendered parseFloat _ _ _ En)) as Hname.
    simpl.
    destruct (handleInputChange parseFloat name value (state w))
      as [s'|err] eqn:E; [|split; assumption].
    pose proof (fun key => handleInputChange_keys _ _ _ _ key E) as Hk.
    apply handleInputChange_frame in E as [fd ->].
    split; simpl; try assumption.
    intros key Hsome. destruct (Hk key Hsome) as [->|H]; auto.
  - destruct w as [s reqs]. simpl in *.
    unfold nextButton in En. apply andb_prop in En as [Hs Hl].
    apply negb_true_iff in Hs, Hl. rewrite (Hidle Hl) in *.
    unfold nextGroup, handleSubmit.
    destruct (_ <? _)%Z; [split; simpl; auto; congruence|].
    destruct (existsb _ _); split; simpl; auto; congruence.
  - destruct w as [s reqs]. simpl in *.
    unfold prevGroup. destruct (_ >? _)%Z; split; simpl; assumption.
  - destruct w as [s reqs]. simpl in *.
    unfold resetButton in En.
    apply andb_prop in En as [En _]. apply andb_prop in En as [Hs _].
    destruct (Hres Hs) as (Hl & _).
    split; simpl; auto using initialFormData_keys; congruence.
  - destruct w as [s reqs]. simpl in *.
    destruct (reqs !! i) as [r|] eqn:Hi; [|discriminate]. simpl.
    destruct (loading s) eqn:Hl;
      [|rewrite (Hidle eq_refl) in Hi; discriminate].
    destruct (Hbusy eq_refl) as (Hlen & He & Hs).
    destruct reqs as [|r0 [|r1 reqs]]; try discriminate.
    destruct i; [|discriminate]. simpl.
    destruct o as [err|[] [result|err]]; split; simpl; auto;
      try congruence; intros _; auto.
Qed.

Lemma initial_session_invariant : session_invariant initialWorld.
Proof.
  split; simpl; auto using initialFormData_keys; congruence.
Qed.

Lemma dispatch_all_session_invariant (es : list Event) (w : World) :
  session_invariant w -> session_invariant (dispatch_all parseFloat w es).
Proof.
  revert w. induction es as [|e es IH]; intros w Hw; simpl; [exact Hw|].
  apply IH, dispatch_session_invariant, Hw.
Qed.

End Session.

Section PageInvariants.

Variable parseFloat : string -> JS.number.






End PageInvariants.




(** * Further properties of the component *)

(** ** More on the order of binary64 values *)

Module FloatFacts.

Lemma is_nan_true (x : float) :
  JS.isNaN x = true <-> Prim2SF x = S754_nan.
Proof.
  split.
  - intros H. destruct (Prim2SF x) eqn:E; try reflexivity;
      assert (JS.isNaN x = false) as F
        by (apply FloatOrder.is_nan_false; rewrite E; discriminate);
      congruence.
  - intros H. destruct (JS.isNaN x) eqn:E; [reflexivity|].
    apply FloatOrder.is_nan_false in E. contradiction.
Qed.

Lemma nan_lt_l (x y : float) : JS.isNaN x = true -> JS.lt x y = false.
Proof.
  rewrite is_nan_true. unfold JS.lt. rewrite FloatAxioms.ltb_spec.
  intros ->. reflexivity.
Qed.

Lemma nan_lt_r (x y : float) : JS.isNaN y = true -> JS.lt x y = false.
Proof.
  rewrite is_nan_true. unfold JS.lt. rewrite FloatAxioms.ltb_spec.
  intros ->. unfold SFltb. destruct (Prim2SF x); reflexivity.
Qed.

Lemma le_true_not_nan (x y : float) :
  JS.le x y = true -> JS.isNaN x = false /\ JS.isNaN y = false.
Proof.
  unfold JS.le. rewrite FloatAxioms.leb_spec. unfold SFleb.
  rewrite !FloatOrder.is_nan_false.
  destruct (SFcompare (Prim2SF x) (Prim2SF y)) eqn:E; [|discriminate].
  intros _. split; intros F;
    assert (SFcompare (Prim2SF x) (Prim2SF y) = None)
      by (apply FloatOrder.SFcompare_nan; auto);
    congruence.
Qed.

Lemma lt_irrefl (x : float) : JS.lt x x = false.
Proof.
  destruct (JS.lt x x) eqn:E; [|reflexivity].
  pose proof (FloatOrder.le_not_lt _ _ (FloatOrder.lt_le _ _ E)).
  congruence.
Qed.

Lemma lt_asym (x y : float) : JS.lt x y = true -> JS.lt y x = false.
Proof.
  intros H. apply FloatOrder.le_not_lt, FloatOrder.lt_le, H.
Qed.

(** [x <= y < z] gives [x < z]. *)
Lemma le_lt_trans (x y z : float) :
  JS.le x y = true -> JS.lt y z = true -> JS.lt x z = true.
Proof.
  intros Hxy Hyz. destruct (JS.lt x z) eqn:E; [reflexivity|].
  destruct (le_true_not_nan _ _ Hxy) as [Hx _].
  destruct (le_true_not_nan _ _ (FloatOrder.lt_le _ _ Hyz)) as [_ Hz].
  pose proof (FloatOrder.not_lt_le _ _ Hx Hz E) as Hzx.
  pose proof (FloatOrder.lt_le_trans _ _ _ Hyz Hzx) as Hyx.
  rewrite (FloatOrder.le_not_lt _ _ Hxy) in Hyx. discriminate.
Qed.

(** Finite values, infinities and zeros. *)

Lemma is_infinity_iff (x : float) :
  PrimFloat.is_infinity x = true <-> exists s, Prim2SF x = S754_infinity s.
Proof.
  unfold PrimFloat.is_infinity.
  rewrite FloatAxioms.eqb_spec, FloatAxioms.abs_spec.
  change (Prim2SF infinity) with (S754_infinity false).
  destruct (Prim2SF x) as [s|s| |s m e]; simpl; split;
    try discriminate; eauto; intros [s' H]; discriminate.
Qed.

Lemma not_finite_cases (x : float) :
  JS.isFinite x = false -> JS.isNaN x = false ->
  exists s, Prim2SF x = S754_infinity s.
Proof.
  unfold JS.isFinite, JS.isNaN, PrimFloat.is_finite. intros H Hn.
  rewrite Hn in H. simpl in H. apply negb_false_iff in H.
  apply is_infinity_iff, H.
Qed.

Lemma finite_not_infinity (x : float) (s : bool) :
  JS.isFinite x = true -> Prim2SF x <> S754_infinity s.
Proof.
  unfold JS.isFinite, PrimFloat.is_finite. intros H E.
  assert (PrimFloat.is_infinity x = true) as F
    by (apply is_infinity_iff; eauto).
  rewrite F, orb_true_r in H. discriminate.
Qed.

Lemma finite_not_nan (x : float) : JS.isFinite x = true -> JS.isNaN x = false.
Proof.
  unfold JS.isFinite, JS.isNaN, PrimFloat.is_finite.
  destruct (is_nan x); [discriminate|reflexivity].
Qed.

(** A value between two finite values is finite. *)
Lemma between_finite (lo x hi : float) :
  JS.isFinite lo = true -> JS.isFinite hi = true ->
  JS.le lo x = true -> JS.le x hi = true -> JS.isFinite x = true.
Proof.
  intros Hlo Hhi Hlx Hxh.
  destruct (JS.isFinite x) eqn:E; [reflexivity|].
  destruct (not_finite_cases x E (proj2 (le_true_not_nan _ _ Hlx)))
    as [s Hs].
  pose proof (finite_not_infinity lo true Hlo) as Nlo1.
  pose proof (finite_not_infinity lo false Hlo) as Nlo2.
  pose proof (finite_not_infinity hi true Hhi) as Nhi1.
  pose proof (finite_not_infinity hi false Hhi) as Nhi2.
  unfold JS.le in *. rewrite FloatAxioms.leb_spec in Hlx, Hxh.
  rewrite Hs in Hlx, Hxh. unfold SFleb in *.
  destruct s, (Prim2SF lo) as [[]|[]| |[] ? ?],
    (Prim2SF hi) as [[]|[]| |[] ? ?]; simpl in *; congruence.
Qed.

(** A value not below a finite one and not finite is the positive
    infinity. *)
Lemma above_not_finite (lo x : float) :
  JS.isFinite lo = true -> JS.le lo x = true -> JS.isFinite x = false ->
  Prim2SF x = S754_infinity false.
Proof.
  intros Hlo Hlx E.
  destruct (not_finite_cases x E (proj2 (le_true_not_nan _ _ Hlx)))
    as [s Hs].
  pose proof (finite_not_infinity lo true Hlo) as Nlo1.
  pose proof (finite_not_infinity lo false Hlo) as Nlo2.
  unfold JS.le in *. rewrite FloatAxioms.leb_spec in Hlx.
  rewrite Hs in *. unfold SFleb in *.
  destruct s, (Prim2SF lo) as [[]|[]| |[] ? ?]; simpl in *; congruence.
Qed.

Lemma is_zero_iff (x : float) :
  PrimFloat.is_zero x = true <-> exists s, Prim2SF x = S754_zero s.
Proof.
  unfold PrimFloat.is_zero. rewrite FloatAxioms.eqb_spec.
  change (Prim2SF zero) with (S754_zero false).
  destruct (Prim2SF x) as [s|s| |s m e]; simpl; split;
    try discriminate; eauto; try (intros [s' H]; discriminate);
    destruct s; discriminate.
Qed.

(** Comparisons do not tell the two zeros apart. *)
Lemma zero_le (x y : float) :
  PrimFloat.is_zero x = true ->
  JS.le y x = JS.le y 0 /\ JS.le x y = JS.le 0 y.
Proof.
  rewrite is_zero_iff. intros [s Hs]. unfold JS.le.
  rewrite !FloatAxioms.leb_spec, Hs.
  change (Prim2SF 0) with (S754_zero false).
  unfold SFleb. destruct (Prim2SF y) as [?|?| |? ? ?]; split; reflexivity.
Qed.

End FloatFacts.

(** ** Navigation *)

Lemma last_group_index : (Z.of_nat (length fieldGroups) - 1)%Z = 4%Z.
Proof. reflexivity. Qed.

(** X1. [nextGroup] before the last group moves the index up by exactly
    one, issues no request and touches nothing else; on the last group it
    is [handleSubmit] and the index stays. [prevGroup] on the first group
    changes nothing; elsewhere it moves the index down by exactly one and
    touches nothing else. *)
Theorem navigation_steps (s : State) :
  ((currentGroupIndex s < 4)%Z ->
   nextGroup s = (setCurrentGroupIndex (fun _ => currentGroupIndex s + 1)%Z s, [])) /\
  ((4 <= currentGroupIndex s)%Z ->
   nextGroup s = handleSubmit s /\
   currentGroupIndex (nextGroup s).1 = currentGroupIndex s) /\
  ((currentGroupIndex s <= 0)%Z -> prevGroup s = s) /\
  ((0 < currentGroupIndex s)%Z ->
   prevGroup s = setCurrentGroupIndex (fun _ => currentGroupIndex s - 1)%Z s).
Proof.
  unfold nextGroup, prevGroup. rewrite last_group_index.
  split; [|split; [|split]]; intros Hi.
  - destruct (Z.ltb_spec (currentGroupIndex s) 4); [reflexivity|lia].
  - destruct (Z.ltb_spec (currentGroupIndex s) 4); [lia|].
    split; [reflexivity|].
    unfold handleSubmit. destruct (existsb _ _); reflexivity.
  - destruct (Z.gtb_spec (currentGroupIndex s) 0); [lia|reflexivity].
  - destruct (Z.gtb_spec (currentGroupIndex s) 0); [reflexivity|lia].
Qed.

Lemma navigation_steps_witness :
  let s := setCurrentGroupIndex (fun _ => 2%Z) initialState in
  currentGroupIndex (nextGroup s).1 = 3%Z /\
  (nextGroup s).2 = [] /\
  currentGroupIndex (prevGroup s) = 1%Z /\
  prevGroup initialState = initialState.
Proof.
  intros s.
  destruct (navigation_steps s) as (Hn & _ & _ & Hp).
  destruct (navigation_steps initialState) as (_ & _ & H0 & _).
  rewrite Hn by (simpl; lia). rewrite Hp by (simpl; lia).
  split; [reflexivity|]. split; [reflexivity|]. split; [reflexivity|].
  apply H0. simpl. lia.
Defined.

(** X2. [prevGroup] undoes [nextGroup] before the last group, and
    [nextGroup] undoes [prevGroup] after the first: the whole state comes
    back, and no request is issued on the way. *)
Theorem navigation_round_trip (s : State) :
  ((0 <= currentGroupIndex s < 4)%Z ->
   prevGroup (nextGroup s).1 = s /\ (nextGroup s).2 = []) /\
  ((0 < currentGroupIndex s <= 4)%Z ->
   nextGroup (prevGroup s) = (s, [])).
Proof.
  unfold nextGroup, prevGroup. rewrite last_group_index.
  destruct s as [fd p l e i sh]. simpl. split; intros H.
  - destruct (Z.ltb_spec i 4); [|lia]. simpl.
    destruct (Z.gtb_spec (i + 1) 0); [|lia].
    split; [|reflexivity]. unfold setCurrentGroupIndex. simpl.
    f_equal. lia.
  - destruct (Z.gtb_spec i 0); [|lia]. simpl.
    destruct (Z.ltb_spec (i - 1) 4); [|lia].
    unfold setCurrentGroupIndex. simpl. do 2 f_equal. lia.
Qed.

Lemma navigation_round_trip_witness :
  let s := setCurrentGroupIndex (fun _ => 2%Z) initialState in
  prevGroup (nextGroup s).1 = s /\ nextGroup (prevGroup s) = (s, []).
Proof.
  intros s. destruct (navigation_round_trip s) as [H1 H2].
  split; [apply H1|apply H2]; simpl; lia.
Defined.

(** ** What the handlers keep *)

Lemma fieldConstraints_min (name : string) (c : Constraints) :
  fieldConstraints !! name = Some c -> is_Some (min c).
Proof.
  unfold fieldConstraints. intros H. apply elem_of_list_to_map_2 in H.
  repeat (apply elem_of_cons in H as [H|H];
          [injection H as -> ->; eexists; reflexivity|]).
  apply elem_of_nil in H. destruct H.
Qed.

Lemma stored_not_nan (name : string) (c : Constraints) (n : JS.number) :
  fieldConstraints !! name = Some c -> within_bounds c n ->
  JS.isNaN n = false.
Proof.
  intros Hc [Hlo _]. destruct (fieldConstraints_min _ _ Hc) as [lo Hmin].
  exact (proj2 (FloatFacts.le_true_not_nan _ _ (Hlo lo Hmin))).
Qed.

(** A record within bounds in which [handleSubmit] finds no blank. *)
Lemma complete_record_intro (fd : FormData) :
  record_ok fd -> existsb is_empty (Object_values fd) = false ->
  complete_record fd.
Proof.
  intros Hok Hne.
  assert (forall name, fd !! name <> Some Blank) as Hnb.
  { intros name Hb.
    assert (existsb is_empty (Object_values fd) = true)
      by (apply hasEmptyFields_iff; eauto).
    congruence. }
  split; [exact Hnb|].
  intros name c Hc. destruct (Hok name c Hc) as [Hb|(n & Hn & Hin)].
  - destruct (Hnb name Hb).
  - exists n. split; [exact Hn|]. split; [|exact Hin].
    exact (stored_not_nan name c n Hc Hin).
Qed.

Lemma fieldConstraints_finite (name : string) (c : Constraints) :
  fieldConstraints !! name = Some c -> constraints_finite c = true.
Proof.
  unfold fieldConstraints. intros H. apply elem_of_list_to_map_2 in H.
  repeat (apply elem_of_cons in H as [H|H];
          [injection H as -> ->; reflexivity|]).
  apply elem_of_nil in H. destruct H.
Qed.

(** What [JSON.stringify] makes of a complete record. *)
Lemma stringify_body_ok (fd : FormData) :
  complete_record fd -> body_ok (JSON_stringify fd).
Proof.
  intros [Hnb Hnum]. unfold JSON_stringify, FormData in *. split.
  - intros name text H. rewrite lookup_fmap in H.
    destruct (fd !! name) as [[|n]|] eqn:E; simpl in H; try discriminate.
    + exact (Hnb name E).
    + revert H. destruct (JS.isFinite n); discriminate.
  - intros name c Hc.
    destruct (Hnum name c Hc) as (n & Hn & Hnan & [Hlo Hhi]).
    rewrite lookup_fmap, Hn. simpl.
    pose proof (fieldConstraints_finite _ _ Hc) as Hfin.
    destruct (fieldConstraints_min _ _ Hc) as [lo Hmin].
    unfold constraints_finite in Hfin. rewrite Hmin in Hfin.
    apply andb_prop in Hfin as [Hflo Hfhi].
    destruct (JS.isFinite n) eqn:Hf.
    + left. eexists. split; [reflexivity|].
      destruct (PrimFloat.is_zero n) eqn:Z; [|repeat split; assumption].
      split; [reflexivity|].
      split; intros b Hb.
      * rewrite <- (proj1 (FloatFacts.zero_le n b Z)). auto.
      * rewrite <- (proj2 (FloatFacts.zero_le n b Z)). auto.
    + right. split; [reflexivity|].
      destruct (max c) as [hi|]; [|reflexivity].
      rewrite (FloatFacts.between_finite lo n hi Hflo Hfhi
                 (Hlo lo Hmin) (Hhi hi eq_refl)) in Hf.
      discriminate.
Qed.

Section HandlersInvariant.

Variable parseFloat : string -> JS.number.

Lemma invoke_handlers_invariant (w : World) (e : Event) :
  handlers_invariant w -> handlers_invariant (invoke parseFloat w e).
Proof.
  intros [Hi Hok Hreq].
  pose proof (invoke_record_ok parseFloat w e Hok) as Hok'.
  split; [|exact Hok'|]; clear Hok';
    destruct w as [s reqs]; unfold index_in_range in *;
    rewrite last_group_index in *; simpl in *;
    destruct e as [name value| | | |i o]; simpl.
  - destruct (handleInputChange parseFloat name value s) as [s'|err] eqn:E;
      [|exact Hi].
    apply handleInputChange_frame in E as [fd ->]. exact Hi.
  - unfold nextGroup, handleSubmit. rewrite last_group_index.
    destruct (Z.ltb_spec (currentGroupIndex s) 4); simpl; [lia|].
    destruct (existsb _ _); simpl; exact Hi.
  - unfold prevGroup.
    destruct (Z.gtb_spec (currentGroupIndex s) 0); simpl; lia.
  - lia.
  - destruct (reqs !! i); [|exact Hi].
    destruct o as [err|[] [result|err]]; exact Hi.
  - destruct (handleInputChange parseFloat name value s); exact Hreq.
  - unfold nextGroup, handleSubmit. rewrite last_group_index.
    destruct (Z.ltb_spec (currentGroupIndex s) 4); simpl;
      [rewrite app_nil_r; exact Hreq|].
    destruct (existsb _ _) eqn:E; simpl; [rewrite app_nil_r; exact Hreq|].
    apply Forall_app. split; [exact Hreq|].
    constructor; [|constructor].
    split; [reflexivity|]. split; [reflexivity|].
    apply stringify_body_ok, complete_record_intro; assumption.
  - exact Hreq.
  - exact Hreq.
  - destruct (reqs !! i); [|exact Hreq]. simpl.
    apply Forall_delete, Hreq.
Qed.

Lemma initial_handlers_invariant : handlers_invariant initialWorld.
Proof.
  split; simpl.
  - unfold index_in_range. rewrite last_group_index. simpl. lia.
  - exact initial_record_ok.
  - constructor.
Qed.

Lemma invoke_all_handlers_invariant (es : list Event) (w : World) :
  handlers_invariant w -> handlers_invariant (invoke_all parseFloat w es).
Proof.
  revert w. induction es as [|e es IH]; intros w Hw; simpl; [exact Hw|].
  apply IH, invoke_handlers_invariant, Hw.
Qed.

(** X3. However the handlers are run from the initial state, the index
    stays between 0 and 4, so [fieldGroups[currentGroupIndex]] is one of
    the five groups and [renderCurrentGroup] never reads an undefined
    one. *)
Theorem currentGroup_defined (history : list Event) :
  let s := state (invoke_all parseFloat initialWorld history) in
  (0 <= currentGroupIndex s <= 4)%Z /\
  exists group, currentGroup s = Some group /\ group ∈ fieldGroups.
Proof.
  intros s.
  destruct (invoke_all_handlers_invariant history _ initial_handlers_invariant)
    as [Hi _ _].
  fold s in Hi. unfold index_in_range in Hi.
  rewrite last_group_index in Hi. split; [exact Hi|].
  unfold currentGroup. destruct (Z.ltb_spec (currentGroupIndex s) 0); [lia|].
  destruct (fieldGroups !! Z.to_nat (currentGroupIndex s)) as [group|] eqn:E.
  - exists group. split; [reflexivity|].
    exact (list_elem_of_lookup_2 _ _ _ E).
  - apply lookup_ge_None in E. simpl in E. lia.
Qed.

(** X4. However the handlers are run from the initial state, every request
    that is outstanding is a POST to the [/predict] address whose body, the
    serialised record, has no string member (no blank was sent) and, under
    each of the 21 fields, a finite number within the field's bounds or,
    only under a field that declares no [max], possibly [null] (what
    [JSON.stringify] makes of a stored infinity). *)
Theorem requests_carry_complete_records (history : list Event) :
  Forall request_ok (pending (invoke_all parseFloat initialWorld history)).
Proof.
  apply invoke_all_handlers_invariant, initial_handlers_invariant.
Qed.

End HandlersInvariant.

(** One run with every field set to 1, and one in which every typed value
    parses to the positive infinity: the fields with a [max] are sent as
    their [max], the others as [null]. *)
Lemma requests_carry_complete_records_witness :
  let w := invoke_all parseFloat_integers initialWorld fill_and_submit in
  let w' :=
    invoke_all (fun _ => PrimFloat.infinity) initialWorld fill_and_submit in
  (length (pending w) = 1 /\ Forall request_ok (pending w)) /\
  (length (pending w') = 1 /\
   (fun r => body r !! "MonthlyRevenue") <$> pending w' !! 0
   = Some (Some JS.JsonNull) /\
   (fun r => body r !! "AgeHH1") <$> pending w' !! 0
   = Some (Some (JS.JsonNumber 120%float)) /\
   Forall request_ok (pending w')).
Proof.
  intros w w'. split.
  - split; [vm_compute; reflexivity|].
    exact (requests_carry_complete_records parseFloat_integers
             fill_and_submit).
  - split; [vm_compute; reflexivity|].
    split; [vm_compute; reflexivity|].
    split; [vm_compute; reflexivity|].
    exact (requests_carry_complete_records
             (fun _ => PrimFloat.infinity) fill_and_submit).
Defined.

(** ** More on edits *)

Section MoreEdits.

Variable parseFloat : string -> JS.number.

(** X5. An edit that completes touches one key of the record only: every
    other field keeps its value, and so do the prediction, the error, the
    index and the two flags. *)
Theorem handleInputChange_touches_one_field (name value : string)
    (s s' : State) :
  handleInputChange parseFloat name value s = JS.Normal s' ->
  (forall other, other <> name ->
     formData s' !! other = formData s !! other) /\
  prediction s' = prediction s /\
  loading s' = loading s /\
  error s' = error s /\
  currentGroupIndex s' = currentGroupIndex s /\
  showResults s' = showResults s.
Proof.
  unfold handleInputChange.
  assert (forall v, forall other, other <> name ->
            formData (setFormData (fun prev => <[name:=v]> prev) s) !! other
            = formData s !! other) as Hins.
  { intros v other Hne. unfold setFormData, FormData in *. simpl.
    apply lookup_insert_ne. congruence. }
  destruct (String.eqb value "").
  - intros [= <-]. split; [apply Hins|repeat split].
  - destruct (JS.isNaN (parseFloat value)); cbn [negb].
    + intros [= <-]. repeat split.
    + destruct (fieldConstraints_get name); [|discriminate].
      intros [= <-]. split; [apply Hins|repeat split].
Qed.

(** X6. An edit under a name that is no field. When
    [fieldConstraints[name]] is undefined, no number is stored: the empty
    string adds the name with a blank, after which [handleSubmit] issues
    no request; a value that does not parse changes nothing; and a value
    that parses makes the handler throw before any state is set. When the
    name is one every object inherits ("constructor", "toString", ...),
    [fieldConstraints[name]] is defined and has no [min] or [max]: nothing
    is thrown and the parsed number is stored as it is under a new key. *)
Theorem handleInputChange_unknown_name (name value : string) (w : World) :
  (fieldConstraints_get name = None ->
   (value = "" ->
    exists s',
      handleInputChange parseFloat name value (state w) = JS.Normal s' /\
      formData s' !! name = Some Blank /\
      (handleSubmit s').2 = []) /\
   (value <> "" -> JS.isNaN (parseFloat value) = true ->
    handleInputChange parseFloat name value (state w) = JS.Normal (state w)) /\
   (value <> "" -> JS.isNaN (parseFloat value) = false ->
    (exists err,
       handleInputChange parseFloat name value (state w) = JS.Throw err) /\
    invoke parseFloat w (Change name value) = w)) /\
  (fieldConstraints !! name = None ->
   existsb (String.eqb name) JS.Object_prototype_names = true ->
   value <> "" -> JS.isNaN (parseFloat value) = false ->
   handleInputChange parseFloat name value (state w) =
   JS.Normal
     (setFormData (insert name (Num (parseFloat value))) (state w))).
Proof.
  split.
  - intros Hc. unfold invoke, handleInputChange. rewrite Hc.
    destruct (String.eqb_spec value "") as [->|Hne].
    + split; [intros _|split; intros H; destruct (H eq_refl)].
      eexists. split; [reflexivity|].
      assert (formData
                (setFormData (fun prev => <[name:=Blank]> prev) (state w))
                !! name = Some Blank) as Hb.
      { unfold setFormData, FormData in *. simpl. apply lookup_insert_eq. }
      split; [exact Hb|].
      unfold handleSubmit.
      assert (existsb is_empty
                (Object_values
                   (formData
                      (setFormData (fun prev => <[name:=Blank]> prev)
                         (state w)))) = true) as ->
        by (apply hasEmptyFields_iff; eauto).
      reflexivity.
    + split; [intros H; destruct (Hne H)|].
      split; intros _ Hnan; rewrite Hnan; cbn [negb]; [reflexivity|].
      split; [eexists|]; reflexivity.
  - intros Hc Hp Hne Hnan. unfold handleInputChange, fieldConstraints_get.
    rewrite Hc, Hp, Hnan.
    destruct (String.eqb_spec value "") as [->|_]; [destruct Hne|];
      reflexivity.
Qed.

(** X7. On a field that has constraints, the later of two edits decides:
    when the second value is empty or parses, the first edit leaves no
    trace; when it does not parse, the first edit stands. In particular
    the same edit twice is the edit once. *)
Theorem handleInputChange_last_edit_wins (name first second : string)
    (c : Constraints) (s s1 : State) :
  fieldConstraints !! name = Some c ->
  handleInputChange parseFloat name first s = JS.Normal s1 ->
  handleInputChange parseFloat name second s1 =
  (if (String.eqb second "" || negb (JS.isNaN (parseFloat second)))%bool
   then handleInputChange parseFloat name second s
   else JS.Normal s1) /\
  handleInputChange parseFloat name first s1 = JS.Normal s1.
Proof.
  intros Hc. rewrite !(handleInputChange_constrained _ _ _ _ c Hc).
  intros [= <-].
  assert (forall u v t, setFormData (insert name u)
                          (setFormData (insert (M:=FormData) name v) t)
                        = setFormData (insert name u) t) as Hover.
  { intros u v t. unfold setFormData, FormData. simpl. f_equal.
    apply insert_insert_eq. }
  split.
  - destruct (String.eqb second ""); simpl.
    + destruct (String.eqb first ""); [|destruct (JS.isNaN (parseFloat first))];
        rewrite ?Hover; reflexivity.
    + destruct (JS.isNaN (parseFloat second)); simpl; [reflexivity|].
      destruct (String.eqb first ""); [|destruct (JS.isNaN (parseFloat first))];
        rewrite ?Hover; reflexivity.
  - destruct (String.eqb first "");
      [|destruct (JS.isNaN (parseFloat first))];
      rewrite ?Hover; reflexivity.
Qed.

End MoreEdits.

Lemma handleInputChange_touches_one_field_witness :
  exists s',
    handleInputChange parseFloat_integers "AgeHH1" "130" initialState
    = JS.Normal s' /\
    formData s' !! "AgeHH2" = Some Blank /\
    currentGroupIndex s' = 0%Z.
Proof.
  destruct (handleInputChange parseFloat_integers "AgeHH1" "130" initialState)
    as [s'|err] eqn:E; [|vm_compute in E; discriminate].
  destruct (handleInputChange_touches_one_field _ _ _ _ _ E)
    as (Hother & _ & _ & _ & Hi & _).
  exists s'. split; [reflexivity|]. split.
  - rewrite (Hother "AgeHH2") by discriminate. reflexivity.
  - rewrite Hi. reflexivity.
Defined.

Lemma handleInputChange_unknown_name_witness :
  fieldConstraints_get "Tenure" = None /\
  invoke parseFloat_integers initialWorld (Change "Tenure" "12")
  = initialWorld /\
  fieldConstraints !! "constructor" = None /\
  handleInputChange parseFloat_integers "constructor" "12" initialState =
  JS.Normal (setFormData (insert "constructor" (Num 12%float)) initialState).
Proof.
  split; [reflexivity|]. split.
  - apply (proj1 (handleInputChange_unknown_name parseFloat_integers
                    "Tenure" "12" initialWorld) eq_refl);
      [discriminate|reflexivity].
  - split; [reflexivity|].
    apply (proj2 (handleInputChange_unknown_name parseFloat_integers
                    "constructor" "12" initialWorld) eq_refl eq_refl);
      [discriminate|reflexivity].
Defined.

Lemma handleInputChange_last_edit_wins_witness :
  exists s1,
    handleInputChange parseFloat_integers "AgeHH1" "130" initialState
    = JS.Normal s1 /\
    handleInputChange parseFloat_integers "AgeHH1" "40" s1
    = handleInputChange parseFloat_integers "AgeHH1" "40" initialState /\
    handleInputChange parseFloat_integers "AgeHH1" "x" s1 = JS.Normal s1.
Proof.
  destruct (handleInputChange parseFloat_integers "AgeHH1" "130" initialState)
    as [s1|err] eqn:E; [|vm_compute in E; discriminate].
  exists s1. split; [reflexivity|].
  split.
  - exact (proj1 (handleInputChange_last_edit_wins parseFloat_integers
                    "AgeHH1" "130" "40" (min_max 0 120)%float
                    initialState s1 eq_refl E)).
  - exact (proj1 (handleInputChange_last_edit_wins parseFloat_integers
                    "AgeHH1" "130" "x" (min_max 0 120)%float
                    initialState s1 eq_refl E)).
Defined.

(** X8. Clamping is idempotent on every field of the table: a value that
    came out of [handleInputChange]'s clamp comes out of it again
    unchanged. *)
Theorem finalValue_idempotent (name : string) (c : Constraints)
    (v : JS.number) :
  fieldConstraints !! name = Some c ->
  finalValue c (finalValue c v) = finalValue c v.
Proof.
  intros Hc. pose proof (proj2 (fieldConstraints_inv _ _ Hc)) as W.
  destruct (JS.isNaN v) eqn:Hnan.
  - assert (finalValue c v = v) as ->; [|apply finalValue_inside];
      try apply finalValue_inside; intros b _;
      rewrite ?FloatOrder.gt_lt;
      auto using FloatFacts.nan_lt_l, FloatFacts.nan_lt_r.
  - destruct (finalValue_within_bounds c W v Hnan) as [Hlo Hhi].
    apply finalValue_inside; intros b Hb; rewrite ?FloatOrder.gt_lt;
      apply FloatOrder.le_not_lt; auto.
Qed.

Lemma finalValue_idempotent_witness :
  fieldConstraints !! "AgeHH1" = Some (min_max 0 120)%float /\
  (finalValue (min_max 0 120) 130 = 120 /\
   finalValue (min_max 0 120) (finalValue (min_max 0 120) 130)
   = finalValue (min_max 0 120) 130)%float.
Proof.
  split; [reflexivity|]. split; [reflexivity|].
  exact (finalValue_idempotent "AgeHH1" (min_max 0 120)%float 130%float
           eq_refl).
Defined.


(** ** More on the page *)

Lemma fieldNames_described :
  Forall (fun name => is_Some (fieldDescriptions !! name)) fieldNames.
Proof.
  unfold fieldNames.
  repeat (constructor; [vm_compute; eexists; reflexivity|]).
  constructor.
Qed.

Section PageProperties.

Variable parseFloat : string -> JS.number.

(** X9. On the page, [loading] tells exactly whether a request is
    outstanding, and there is never more than one: [loading] is true
    exactly when one request is outstanding and false exactly when none
    is. *)
Theorem page_loading_tracks_request (es : list Event) :
  let w := dispatch_all parseFloat initialWorld es in
  length (pending w) <= 1 /\
  (loading (state w) = true <-> length (pending w) = 1) /\
  (loading (state w) = false <-> pending w = []).
Proof.
  intros w.
  destruct (dispatch_all_session_invariant parseFloat es _
              initial_session_invariant) as [Hidle Hbusy _ _ _].
  fold w in Hidle, Hbusy.
  destruct (loading (state w)) eqn:Hl.
  - destruct (Hbusy eq_refl) as [Hlen _]. rewrite Hlen.
    split; [lia|]. split; [tauto|].
    split; [discriminate|]. intros H. rewrite H in Hlen. discriminate.
  - rewrite (Hidle eq_refl). simpl.
    split; [lia|]. split; [|tauto]. split; discriminate.
Qed.


(** X11. On the page, the results view with a prediction stored always
    offers "Analyze Another Customer", and a click on that button gives
    back exactly the initial page: the initial state, [loading] included,
    and no request outstanding. *)
Theorem page_reset_is_initial (es : list Event) :
  let w := dispatch_all parseFloat initialWorld es in
  (showResults (state w) = true -> is_Some (prediction (state w)) ->
   resetButton (state w) = true) /\
  (resetButton (state w) = true ->
   dispatch parseFloat w ClickReset = initialWorld).
Proof.
  intros w.
  destruct (dispatch_all_session_invariant parseFloat es _
              initial_session_invariant) as [Hidle _ Hres _ _].
  fold w in Hidle, Hres. split.
  - intros Hs [p Hp]. destruct (Hres Hs) as (_ & He).
    unfold resetButton. rewrite Hs, He, Hp. reflexivity.
  - intros Hb. unfold dispatch. simpl. rewrite Hb.
    unfold resetButton in Hb.
    apply andb_prop in Hb as [Hb _]. apply andb_prop in Hb as [Hs _].
    destruct (Hres Hs) as (Hl & _).
    destruct w as [s reqs]. simpl in *. rewrite (Hidle Hl).
    unfold initialWorld. f_equal.
    destruct s; simpl in *; subst; reflexivity.
Qed.

(** X12. However the handlers are run from the initial state, every input
    the form renders is a field that has constraints, a description and a
    key in the record; so its [onChange] handler completes, whatever is
    typed, and never throws. *)
Theorem rendered_inputs_never_throw (history : list Event) (name : string) :
  let s := state (invoke_all parseFloat initialWorld history) in
  name ∈ renderedInputs s ->
  is_Some (fieldConstraints !! name) /\
  is_Some (fieldDescriptions !! name) /\
  is_Some (formData s !! name) /\
  forall value, exists s',
    handleInputChange parseFloat name value s = JS.Normal s'.
Proof.
  intros s Hin. apply renderedInputs_known in Hin.
  destruct (proj1 (Forall_forall _ _) fieldNames_constrained name Hin)
    as [c Hc].
  split; [eauto|].
  split; [exact (proj1 (Forall_forall _ _) fieldNames_described name Hin)|].
  split.
  - apply record_ok_has_all_fields; [|exact Hin].
    apply invoke_all_record_ok, initial_record_ok.
  - intros value. eexists.
    exact (handleInputChange_constrained parseFloat name value s c Hc).
Qed.

(** X13. On the page, when each of the 21 fields holds a number, a click
    on "Predict Churn" (the second button on the last group, enabled)
    issues exactly one request, a POST of the record as it is (serialised),
    sets [loading] and clears the error. *)
Theorem page_submit_complete (es : list Event) :
  let w := dispatch_all parseFloat initialWorld es in
  nextButton (state w) = true ->
  currentGroupIndex (state w) = 4%Z ->
  (forall name, name ∈ fieldNames ->
     exists n, formData (state w) !! name = Some (Num n)) ->
  dispatch parseFloat w ClickNext =
  mkWorld (setError None (setLoading true (state w)))
    [mkRequest "https://ispmodelchurn.onrender.com/predict" "POST"
       (JSON_stringify (formData (state w)))].
Proof.
  intros w Hb Hi Hall.
  destruct (dispatch_all_session_invariant parseFloat es _
              initial_session_invariant) as [Hidle _ _ _ Hkeys].
  fold w in Hidle, Hkeys.
  unfold dispatch. simpl. rewrite Hb.
  unfold nextButton in Hb. apply andb_prop in Hb as [_ Hl].
  apply negb_true_iff in Hl. rewrite (Hidle Hl).
  unfold nextGroup, handleSubmit. rewrite last_group_index, Hi. simpl.
  destruct (existsb is_empty (Object_values (formData (state w)))) eqn:E;
    [|reflexivity].
  apply hasEmptyFields_iff in E as [name Hname].
  destruct (Hall name (Hkeys name (ex_intro _ _ Hname))) as [n Hn].
  congruence.
Qed.

(** X14. On the page, when the outstanding request settles, nothing stays
    outstanding, [loading] becomes false and the record is as it was. A
    successful response with a prediction puts the prediction panel on the
    card, with the result stored, no error and the reset button rendered.
    A successful response with the body [null] leaves the card empty:
    [showResults] is true with no prediction, and no control is rendered
    any more, so no event can change the page. A failed response leaves
    the form on the card, with the message stored and the second button
    enabled again. *)
Theorem page_settle (es : list Event) (i : nat) (request : Request)
    (o : FetchOutcome) :
  let w := dispatch_all parseFloat initialWorld es in
  pending w !! i = Some request ->
  let w' := dispatch parseFloat w (FetchSettled i o) in
  pending w' = [] /\
  loading (state w') = false /\
  formData (state w') = formData (state w) /\
  match o with
  | Responded true (JS.Normal (Some result)) =>
      view (state w') = ResultsPanel /\
      prediction (state w') = Some result /\
      error (state w') = None /\
      resetButton (state w') = true
  | Responded true (JS.Normal None) =>
      view (state w') = NothingShown /\
      showResults (state w') = true /\
      prediction (state w') = None /\
      error (state w') = None /\
      forall e, enabled w' e = false
  | _ =>
      view (state w') = FormView /\
      error (state w') = failure_message o /\
      prediction (state w') = None /\
      nextButton (state w') = true
  end.
Proof.
  intros w Hi w'.
  destruct (dispatch_all_session_invariant parseFloat es _
              initial_session_invariant) as [Hidle Hbusy _ Hform _].
  fold w in Hidle, Hbusy, Hform.
  destruct (loading (state w)) eqn:Hl;
    [|rewrite (Hidle eq_refl) in Hi; discriminate].
  destruct (Hbusy eq_refl) as (Hlen & He & Hs).
  pose proof (Hform Hs) as Hp.
  subst w'. unfold dispatch. simpl. rewrite Hi.
  destruct (pending w) as [|r0 [|r1 reqs]]; try discriminate.
  destruct i; [|discriminate].
  unfold view, resetButton, nextButton.
  destruct o as [err|[] [[result|]|err]]; simpl;
    rewrite ?Hs, ?He, ?Hp; repeat split.
  intros [name value| | | |j o];
    unfold enabled, renderedInputs, nextButton, previousButton, resetButton,
      handleSubmit_settle, setLoading, setShowResults, setPrediction;
    simpl; rewrite ?He; reflexivity.
Qed.

End PageProperties.


Lemma page_reset_is_initial_witness :
  let w :=
    dispatch_all parseFloat_integers initialWorld
      (fill_and_submit ++ [FetchSettled 0 http_200])%list in
  resetButton (state w) = true /\
  dispatch parseFloat_integers w ClickReset = initialWorld.
Proof.
  intros w.
  assert (resetButton (state w) = true) as Hb by (vm_compute; reflexivity).
  split; [exact Hb|].
  exact (proj2 (page_reset_is_initial parseFloat_integers _) Hb).
Defined.

Lemma rendered_inputs_never_throw_witness :
  "OverageMinutes" ∈
    renderedInputs (state (invoke_all parseFloat_integers initialWorld [])) /\
  exists s',
    handleInputChange parseFloat_integers "OverageMinutes" "-3"
      (state (invoke_all parseFloat_integers initialWorld []))
    = JS.Normal s'.
Proof.
  assert ("OverageMinutes" ∈
            renderedInputs
              (state (invoke_all parseFloat_integers initialWorld [])))
    as Hin by (apply (bool_decide_unpack _); vm_compute; exact I).
  split; [exact Hin|].
  destruct (rendered_inputs_never_throw parseFloat_integers []
              "OverageMinutes" Hin) as (_ & _ & _ & H).
  exact (H "-3").
Defined.

Lemma page_submit_complete_witness :
  let w :=
    dispatch_all parseFloat_integers initialWorld
      (removelast fill_and_submit) in
  nextButton (state w) = true /\
  currentGroupIndex (state w) = 4%Z /\
  length (pending (dispatch parseFloat_integers w ClickNext)) = 1.
Proof.
  intros w.
  assert (nextButton (state w) = true) as Hb by (vm_compute; reflexivity).
  assert (currentGroupIndex (state w) = 4%Z) as Hi
    by (vm_compute; reflexivity).
  split; [exact Hb|]. split; [exact Hi|].
  pose proof (page_submit_complete parseFloat_integers _ Hb Hi) as H.
  fold w in H. rewrite H; [reflexivity|].
  apply Forall_forall. unfold fieldNames.
  repeat (constructor; [vm_compute; eexists; reflexivity|]).
  constructor.
Defined.

Lemma page_settle_witness :
  let w := dispatch_all parseFloat_integers initialWorld fill_and_submit in
  let w1 := dispatch parseFloat_integers w (FetchSettled 0 http_200) in
  let w2 := dispatch parseFloat_integers w (FetchSettled 0 http_200_null) in
  length (pending w) = 1 /\
  (view (state w1) = ResultsPanel /\
   prediction (state w1) = Some sample_result) /\
  (view (state w2) = NothingShown /\ enabled w2 ClickReset = false).
Proof.
  intros w w1 w2. split; [vm_compute; reflexivity|].
  destruct (pending w !! 0) as [request|] eqn:Hi;
    [|vm_compute in Hi; discriminate].
  destruct (page_settle parseFloat_integers fill_and_submit 0 request
              http_200 Hi) as (_ & _ & _ & Hv & Hp & _).
  destruct (page_settle parseFloat_integers fill_and_submit 0 request
              http_200_null Hi) as (_ & _ & _ & Hv2 & _ & _ & _ & Hdead).
  split; [split; [exact Hv|exact Hp]|].
  split; [exact Hv2|exact (Hdead ClickReset)].
Defined.

(** ** How submissions and captions compose *)

(** X15. A failed submission can be retried as it was: after a request was
    issued and failed, the message is stored, and [handleSubmit] again
    issues the same request and gives the same state as the first time,
    the stored message cleared. *)
Theorem retry_after_failure (s : State) (o : FetchOutcome) (m : string) :
  failure_message o = Some m ->
  (handleSubmit s).2 <> [] ->
  let failed := handleSubmit_settle o (handleSubmit s).1 in
  error failed = Some m /\
  loading failed = false /\
  handleSubmit failed = handleSubmit s.
Proof.
  intros Hm Hreq failed. subst failed. unfold handleSubmit in *.
  destruct (existsb is_empty (Object_values (formData s))) eqn:E;
    [destruct Hreq; reflexivity|].
  destruct o as [err|[] [result|err]]; simpl in *; try discriminate;
    injection Hm as <-; rewrite E; repeat split.
Qed.

Lemma retry_after_failure_witness :
  let s := state (invoke_all parseFloat_integers initialWorld fill_all) in
  let failed := handleSubmit_settle http_500 (handleSubmit s).1 in
  length (handleSubmit s).2 = 1 /\
  error failed = Some "Prediction request failed" /\
  handleSubmit failed = handleSubmit s.
Proof.
  intros s failed. split; [vm_compute; reflexivity|].
  destruct (retry_after_failure s http_500 "Prediction request failed"
              eq_refl) as (He & _ & Hr).
  - vm_compute. discriminate.
  - split; [exact He|exact Hr].
Defined.

Section Caption.

Variable parseFloat : string -> JS.number.

(** X16. However the handlers are run from the initial state, the caption
    of the second button tells what a click does: under "Predict Churn"
    [nextGroup] is [handleSubmit]; under "Next" it moves to the next group
    and issues no request; and "Processing..." is shown exactly while
    [loading], when the button is disabled. *)
Theorem caption_tells_click (history : list Event) :
  let s := state (invoke_all parseFloat initialWorld history) in
  match nextButtonCaption s with
  | CaptionProcessing => loading s = true /\ nextButton s = false
  | CaptionPredictChurn =>
      loading s = false /\ nextGroup s = handleSubmit s
  | CaptionNext =>
      loading s = false /\
      nextGroup s =
        (setCurrentGroupIndex (fun _ => currentGroupIndex s + 1)%Z s, [])
  end.
Proof.
  intros s.
  destruct (invoke_all_handlers_invariant parseFloat history _
              initial_handlers_invariant) as [Hi _ _].
  fold s in Hi. unfold index_in_range in Hi.
  unfold nextButtonCaption, nextButton, nextGroup.
  rewrite last_group_index in *.
  destruct (loading s).
  - split; [reflexivity|apply andb_false_r].
  - destruct (Z.eqb_spec (currentGroupIndex s) 4) as [E|E];
      (split; [reflexivity|]);
      destruct (Z.ltb_spec (currentGroupIndex s) 4); try lia; reflexivity.
Qed.

End Caption.

(** ** The two threshold policies side by side *)

(** X17. The colour and the title of one probability: the "Critical" title
    comes only with the high tier's colour, and the low tier's colour only
    with the "Growth" title; but from 0.3 to 0.4 the medium tier's colour
    comes with the "Growth" title, and at 0.7 the high tier's colour comes
    with the "Preventive" title. *)
Theorem colour_and_title (p : JS.number) :
  (title_of p = "Critical Retention Actions Required" ->
   getChurnRiskColor p = tier_class high) /\
  (getChurnRiskColor p = tier_class low ->
   title_of p = "Growth Opportunity Identified") /\
  (JS.le 0.3 p = true -> JS.le p 0.4 = true ->
   getChurnRiskColor p = tier_class medium /\
   title_of p = "Growth Opportunity Identified") /\
  (getChurnRiskColor 0.7 = tier_class high /\
   title_of 0.7 = "Preventive Measures Recommended").
Proof.
  unfold title_of, getChurnRiskColor, getRecommendedActions.
  rewrite !FloatOrder.gt_lt.
  split; [|split; [|split; [|split; reflexivity]]].
  - destruct (JS.lt 0.7 p) eqn:Hgt;
      [|destruct (JS.lt 0.4 p); simpl; discriminate].
    intros _. rewrite (FloatFacts.lt_asym _ _ Hgt).
    destruct (JS.lt p 0.3) eqn:Hlt; [|reflexivity].
    assert (JS.lt 0.7 0.3 = true) as F
      by exact (FloatOrder.lt_le_trans _ _ _ Hgt (FloatOrder.lt_le _ _ Hlt)).
    discriminate F.
  - destruct (JS.lt p 0.3) eqn:Hlt;
      [|destruct (JS.lt p 0.7); simpl; discriminate].
    intros _.
    destruct (JS.lt 0.7 p) eqn:Hgt.
    { assert (JS.lt 0.7 0.3 = true) as F
        by exact (FloatOrder.lt_le_trans _ _ _ Hgt (FloatOrder.lt_le _ _ Hlt)).
      discriminate F. }
    destruct (JS.lt 0.4 p) eqn:Hgt'; [|reflexivity].
    assert (JS.lt 0.4 0.3 = true) as F
      by exact (FloatOrder.lt_le_trans _ _ _ Hgt' (FloatOrder.lt_le _ _ Hlt)).
    discriminate F.
  - intros Hlo Hhi.
    rewrite (FloatOrder.le_not_lt _ _ Hlo), (FloatOrder.le_not_lt _ _ Hhi).
    assert (JS.lt p 0.7 = true) as Hlt
      by (apply (FloatFacts.le_lt_trans _ _ _ Hhi); reflexivity).
    rewrite Hlt, (FloatFacts.lt_asym _ _ Hlt). split; reflexivity.
Qed.

Lemma colour_and_title_witness :
  (JS.le 0.3 0.35 = true /\ JS.le 0.35 0.4 = true /\
   getChurnRiskColor 0.35 = tier_class medium /\
   title_of 0.35 = "Growth Opportunity Identified") /\
  (title_of 0.9 = "Critical Retention Actions Required" /\
   getChurnRiskColor 0.9 = tier_class high).
Proof.
  split.
  - split; [reflexivity|]. split; [reflexivity|].
    apply (proj1 (proj2 (proj2 (colour_and_title 0.35%float))));
      reflexivity.
  - split; [reflexivity|].
    apply (proj1 (colour_and_title 0.9%float)). reflexivity.
Defined.

(** X18. A probability that is [NaN] (no comparison with it holds) gets
    the high tier's colour and the "Growth Opportunity Identified" plan. *)
Theorem nan_probability (p : JS.number) :
  JS.isNaN p = true ->
  getChurnRiskColor p = tier_class high /\
  title_of p = "Growth Opportunity Identified" /\
  length (steps (getRecommendedActions p)) = 4.
Proof.
  intros H. unfold title_of, getChurnRiskColor, getRecommendedActions.
  rewrite !FloatOrder.gt_lt.
  rewrite !(FloatFacts.nan_lt_l _ _ H), !(FloatFacts.nan_lt_r _ _ H).
  repeat split.
Qed.

Lemma nan_probability_witness :
  JS.isNaN PrimFloat.nan = true /\
  getChurnRiskColor PrimFloat.nan = tier_class high /\
  title_of PrimFloat.nan = "Growth Opportunity Identified".
Proof.
  split; [reflexivity|].
  destruct (nan_probability PrimFloat.nan eq_refl) as (Hc & Ht & _).
  split; [exact Hc|exact Ht].
Defined.

Lemma caption_tells_click_witness :
  let s :=
    state (invoke_all parseFloat_integers initialWorld
             (removelast fill_and_submit)) in
  nextButtonCaption s = CaptionPredictChurn /\
  nextGroup s = handleSubmit s.
Proof.
  intros s.
  assert (nextButtonCaption s = CaptionPredictChurn) as Hc
    by (vm_compute; reflexivity).
  split; [exact Hc|].
  pose proof (caption_tells_click parseFloat_integers
                (removelast fill_and_submit)) as H.
  cbv zeta in H. fold s in H. rewrite Hc in H. exact (proj2 H).
Defined.

(** ** Labels of the inputs *)

Lemma is_white_space : is_white space = true.
Proof. reflexivity. Qed.

Lemma no_white_cons (c : Ascii.ascii) (s : string) :
  no_white (String c s) <-> is_white c = false /\ no_white s.
Proof.
  unfold no_white. simpl. split.
  - intros H. inversion H; subst. split; assumption.
  - intros [Hc Hs]. constructor; assumption.
Qed.

Lemma not_white_not_space (c : Ascii.ascii) :
  is_white c = false -> Ascii.eqb c space = false.
Proof.
  intros H. destruct (Ascii.eqb_spec c space) as [->|]; [|reflexivity].
  rewrite is_white_space in H. discriminate.
Qed.

Lemma without_spaces_space_capitals (s : string) :
  no_white s -> without_spaces (space_capitals s) = s.
Proof.
  induction s as [|c s IH]; [reflexivity|].
  rewrite no_white_cons. intros [Hc Hs]. simpl.
  destruct (is_upper c); simpl;
    rewrite ?Ascii.eqb_refl, (not_white_not_space c Hc), (IH Hs);
    reflexivity.
Qed.

Lemma trimEnd_cons_fixed (c : Ascii.ascii) (s : string) :
  is_white c = false -> trimEnd s = s -> trimEnd (String c s) = String c s.
Proof.
  intros Hc Hs. simpl. rewrite Hs, Hc. destruct s; reflexivity.
Qed.

Lemma trimEnd_cons_nonempty (c : Ascii.ascii) (s : string) :
  s <> "" -> trimEnd s = s -> trimEnd (String c s) = String c s.
Proof.
  intros Hne Hs. simpl. rewrite Hs. destruct s; [destruct Hne|]; reflexivity.
Qed.

Lemma trimEnd_space_capitals (s : string) :
  no_white s -> trimEnd (space_capitals s) = space_capitals s.
Proof.
  induction s as [|c s IH]; [reflexivity|].
  rewrite no_white_cons. intros [Hc Hs].
  pose proof (trimEnd_cons_fixed c _ Hc (IH Hs)) as Hcs.
  cbn [space_capitals]. destruct (is_upper c); [|exact Hcs].
  apply trimEnd_cons_nonempty; [discriminate|exact Hcs].
Qed.

(** The label of a name without white space: its first character, then
    the rest with a space before each capital. *)
Lemma fieldLabel_no_white (c : Ascii.ascii) (s : string) :
  no_white (String c s) ->
  fieldLabel (String c s) = String c (space_capitals s).
Proof.
  rewrite no_white_cons. intros [Hc Hs].
  pose proof (trimEnd_cons_fixed c _ Hc (trimEnd_space_capitals s Hs)) as Hcs.
  unfold fieldLabel, trim. cbn [space_capitals].
  destruct (is_upper c); cbn [trimStart];
    rewrite ?is_white_space; cbn [trimStart]; rewrite Hc; exact Hcs.
Qed.

(** X19. The label of an input is its field name with a space before each
    capital but the first character. For names without white space, taking
    the spaces out of the label gives the name back, so two such names
    with the same label are the same name; and the label neither starts
    nor ends with white space. *)
Theorem fieldLabel_round_trip (name : string) :
  no_white name ->
  without_spaces (fieldLabel name) = name /\
  (forall other, no_white other ->
     fieldLabel other = fieldLabel name -> other = name) /\
  trimStart (fieldLabel name) = fieldLabel name /\
  trimEnd (fieldLabel name) = fieldLabel name.
Proof.
  assert (forall s, no_white s -> without_spaces (fieldLabel s) = s) as Hrt.
  { intros [|c s] Hs; [reflexivity|].
    rewrite (fieldLabel_no_white c s Hs).
    apply no_white_cons in Hs as [Hc Hs]. simpl.
    rewrite (not_white_not_space c Hc), (without_spaces_space_capitals s Hs).
    reflexivity. }
  intros Hname. split; [exact (Hrt name Hname)|].
  split.
  { intros other Hother Heq.
    rewrite <- (Hrt other Hother), <- (Hrt name Hname), Heq. reflexivity. }
  destruct name as [|c s]; [split; reflexivity|].
  rewrite (fieldLabel_no_white c s Hname).
  apply no_white_cons in Hname as [Hc Hs]. split.
  - simpl. rewrite Hc. reflexivity.
  - exact (trimEnd_cons_fixed c _ Hc (trimEnd_space_capitals s Hs)).
Qed.

Lemma fieldLabel_round_trip_witness :
  fieldLabel "MonthlyRevenue" = "Monthly Revenue" /\
  fieldLabel "AgeHH1" = "Age H H1" /\
  fieldLabel "total_unsuccessful_calls" = "total_unsuccessful_calls" /\
  without_spaces (fieldLabel "MonthlyRevenue") = "MonthlyRevenue".
Proof.
  split; [reflexivity|]. split; [reflexivity|]. split; [reflexivity|].
  assert (no_white "MonthlyRevenue") as H.
  { unfold no_white. simpl.
    repeat (constructor; [reflexivity|]). constructor. }
  exact (proj1 (fieldLabel_round_trip "MonthlyRevenue" H)).
Defined.

(** ** The groups and the fields *)

(** X20. The five groups show each of the 21 fields exactly once: their
    inputs, taken together, are the fields of the record without
    repetition, in groups of 4, 4, 4, 4 and 5. *)
Theorem fieldGroups_partition :
  NoDup (flat_map FieldGroup.fields fieldGroups) /\
  (forall name,
     name ∈ flat_map FieldGroup.fields fieldGroups <-> name ∈ fieldNames) /\
  map (fun group => length (FieldGroup.fields group)) fieldGroups
  = [4; 4; 4; 4; 5] /\
  length fieldNames = 21.
Proof.
  split; [apply (bool_decide_unpack _); vm_compute; exact I|].
  split; [|split; reflexivity].
  intros name. split; intros H.
  - apply list_elem_of_In, in_flat_map in H as (group & Hg & Hn).
    apply list_elem_of_In in Hg, Hn.
    pose proof (proj1 (Forall_forall _ _) fieldGroups_fields_known group Hg)
      as Hk.
    exact (proj1 (Forall_forall _ _) Hk name Hn).
  - revert name H. apply Forall_forall. unfold fieldNames.
    repeat (constructor;
            [apply (bool_decide_unpack _); vm_compute; exact I|]).
    constructor.
Qed.

(** ** Order of the tiers *)

(** X21. Both mappings are monotone: if [p <= q], then [q] in the low
    tier's colour puts [p] there too, and [p] in the high tier's colour
    puts [q] there too; likewise [q] with the "Growth" title gives [p] the
    same title, and [p] with the "Critical" title gives it to [q]. *)
Theorem tiers_monotone (p q : JS.number) :
  JS.le p q = true ->
  (getChurnRiskColor q = tier_class low ->
   getChurnRiskColor p = tier_class low) /\
  (getChurnRiskColor p = tier_class high ->
   getChurnRiskColor q = tier_class high) /\
  (title_of q = "Growth Opportunity Identified" ->
   title_of p = "Growth Opportunity Identified") /\
  (title_of p = "Critical Retention Actions Required" ->
   title_of q = "Critical Retention Actions Required").
Proof.
  intros Hpq. unfold title_of, getChurnRiskColor, getRecommendedActions.
  rewrite !FloatOrder.gt_lt.
  assert (forall x, JS.lt q x = true -> JS.lt p x = true) as Hdown
    by (intros x; apply FloatFacts.le_lt_trans, Hpq).
  assert (forall x, JS.lt x p = true -> JS.lt x q = true) as Hup
    by (intros x H; exact (FloatOrder.lt_le_trans _ _ _ H Hpq)).
  split; [|split; [|split]].
  - destruct (JS.lt q 0.3) eqn:E;
      [|destruct (JS.lt q 0.7); simpl; discriminate].
    rewrite (Hdown _ E). reflexivity.
  - destruct (JS.lt p 0.3) eqn:E3; [simpl; discriminate|].
    destruct (JS.lt p 0.7) eqn:E7; [simpl; discriminate|]. intros _.
    destruct (JS.lt q 0.3) eqn:F3; [rewrite (Hdown _ F3) in E3; discriminate|].
    destruct (JS.lt q 0.7) eqn:F7; [rewrite (Hdown _ F7) in E7; discriminate|].
    reflexivity.
  - destruct (JS.lt 0.7 q) eqn:E7; [simpl; discriminate|].
    destruct (JS.lt 0.4 q) eqn:E4; [simpl; discriminate|]. intros _.
    destruct (JS.lt 0.7 p) eqn:F7; [rewrite (Hup _ F7) in E7; discriminate|].
    destruct (JS.lt 0.4 p) eqn:F4; [rewrite (Hup _ F4) in E4; discriminate|].
    reflexivity.
  - destruct (JS.lt 0.7 p) eqn:E;
      [|destruct (JS.lt 0.4 p); simpl; discriminate].
    rewrite (Hup _ E). reflexivity.
Qed.

Lemma tiers_monotone_witness :
  JS.le 0.75 0.9 = true /\
  getChurnRiskColor 0.75 = tier_class high /\
  getChurnRiskColor 0.9 = tier_class high.
Proof.
  split; [reflexivity|]. split; [reflexivity|].
  apply (proj1 (proj2 (tiers_monotone 0.75%float 0.9%float eq_refl))). reflexivity.
Defined.

(** ** The results view under any order of the handlers *)

Section ResultsHavePrediction.

Variable parseFloat : string -> JS.number.


End ResultsHavePrediction.

